(** * sql-table-creator: a shallow embedding of [sql-table-creator.py]

    The module has two functions: [slugify], which turns a free-form label
    into an SQL identifier, and [create_table_sql_script], which infers a
    [CREATE TABLE] statement from a pandas DataFrame.

    Conventions of the embedding.
    - A Python [str] is a [string]; each character is read as the code point
      of the same number, so the strings covered are those over U+0000..U+00FF.
      The character classes below are Python 3's on that range.
    - A call either returns a value or raises; raises are told apart by the
      [raise] statement (or failing operation) they come from. The one
      operation covered in part is [str.format]: only templates whose
      replacement fields are all [{}] are modelled, the others are marked.
    - Python lists updated in place are lists threaded through the passes,
      read with [!!] and written with [<[ i := x ]>] after an explicit bounds
      check, since Python raises [IndexError] where the latter does nothing. *)

From Stdlib Require Import ZArith Ascii String.
From stdpp Require Import base decidable option list strings pretty.

#[local] Set Warnings "-clear-no-such-hyp".

(** ** Characters *)

Definition code (c : ascii) : N := N_of_ascii c.

Definition in_range (lo hi : N) (c : ascii) : bool :=
  ((lo <=? code c) && (code c <=? hi))%N.

(** [str.isspace], which both [str.strip()] and the pattern [\s] use. *)
Definition is_space (c : ascii) : bool :=
  in_range 9 13 c || in_range 28 32 c || (code c =? 133)%N || (code c =? 160)%N.

(** Alphanumeric in the sense of [\w]: letters, decimal digits and the other
    numeric characters. *)
Definition is_alnum (c : ascii) : bool :=
  in_range 48 57 c || in_range 65 90 c || in_range 97 122 c
  || (code c =? 170)%N || in_range 178 179 c || (code c =? 181)%N
  || in_range 185 186 c || in_range 188 190 c
  || in_range 192 214 c || in_range 216 246 c || in_range 248 255 c.

(** The pattern [\w]. *)
Definition is_word (c : ascii) : bool := is_alnum c || (code c =? 95)%N.

(** [str.lower] on one character. *)
Definition lower_char (c : ascii) : ascii :=
  if in_range 65 90 c || in_range 192 214 c || in_range 216 222 c
  then ascii_of_N (code c + 32) else c.

Definition is_dot (c : ascii) : bool := (code c =? 46)%N.

(** Complement of the class [[^\w.-]]: the characters line 25 keeps. *)
Definition is_kept (c : ascii) : bool :=
  is_word c || is_dot c || (code c =? 45)%N.

(** Membership in the argument of [strip('_.- ')]. *)
Definition is_trim (c : ascii) : bool :=
  (code c =? 95)%N || is_dot c || (code c =? 45)%N || (code c =? 32)%N.

(** ** String operations used by [slugify] *)

Section strip.
Variable p : ascii -> bool.

Fixpoint lstrip (l : list ascii) : list ascii :=
  match l with
  | [] => []
  | c :: r => if p c then lstrip r else l
  end.

Fixpoint rstrip (l : list ascii) : list ascii :=
  match l with
  | [] => []
  | c :: r =>
      match rstrip r with
      | [] => if p c then [] else [c]
      | r' => c :: r'
      end
  end.

(** [s.strip(chars)]: drop the characters of the set from both ends. *)
Definition strip (l : list ascii) : list ascii := rstrip (lstrip l).
End strip.

(** [re.sub('\.', '', s)] *)
Definition remove_dots (l : list ascii) : list ascii :=
  List.filter (fun c => negb (is_dot c)) l.

(** [re.sub('\s+', '_', s)]: each maximal run of whitespace becomes one
    underscore. [in_run] tells that the previous character was whitespace. *)
Fixpoint sub_spaces (in_run : bool) (l : list ascii) : list ascii :=
  match l with
  | [] => []
  | c :: r =>
      if is_space c
      then (if in_run then sub_spaces true r else "_"%char :: sub_spaces true r)
      else c :: sub_spaces false r
  end.

(** [re.sub('[^\w.-]', '', s)] *)
Definition remove_unsafe (l : list ascii) : list ascii := List.filter is_kept l.

Definition lower (l : list ascii) : list ascii := List.map lower_char l.

(** Lines 22-26 on the characters of a non-empty string. *)
Definition slug_chars (l : list ascii) : list ascii :=
  lower (strip is_trim (remove_unsafe (sub_spaces false (remove_dots (strip is_space l))))).

(** [slugify]. The argument is [None] for Python's [None]; a falsy argument
    ([None] or the empty string) falls off the end of the function, which
    returns [None]. The labels covered are those over U+0000..U+00FF;
    [str.lower] maps that range into itself one character at a time, so a
    sanitized name is a string of the embedding again. *)
Definition slugify (str : option string) : option string :=
  match str with
  | None => None
  | Some EmptyString => None
  | Some s => Some (string_of_list_ascii (slug_chars (list_ascii_of_string s)))
  end.

Arguments slugify : simpl never.

(** ** Python values, exceptions and results *)

(** The dynamically typed arguments [pkey], [varchar_max] and [infer_nulls]
    range over the Python values the function tells apart. *)
Inductive pyval :=
| PyNone
| PyBool (b : bool)
| PyInt (z : Z)
| PyStr (s : string).

(** One constructor per place where the call can raise. *)
Inductive exn :=
| DuplicateColumns        (* line 84,  [Exception] *)
| InferNullsNotBool       (* line 87,  [TypeError] *)
| StrAccessor             (* line 108, [.str] of values that are not strings:
                             [AttributeError] *)
| LengthIsNaN             (* line 112, [int] of NaN: [ValueError] *)
| PrimaryKeyNull          (* line 140, [PrimaryKeyNullError] *)
| PkeyUnknown             (* line 142, [ValueError] *)
| PkeyNotStr              (* line 144, [TypeError] *)
| OverwriteUnknown        (* line 162, [ValueError] *)
| NotInList               (* [list.index] and [list.remove]: [ValueError] *)
| IndexOutOfRange         (* subscript of a list: [IndexError] *)
| NoStripAttribute        (* [slugify] of a truthy non-string: [AttributeError] *)
| FormatSingleBrace       (* [str.format]: [ValueError] *)
| FormatIndexOutOfRange.  (* [str.format]: [IndexError] *)

Definition exn_class (e : exn) : string :=
  match e with
  | DuplicateColumns => "Exception"
  | InferNullsNotBool | PkeyNotStr => "TypeError"
  | LengthIsNaN | PkeyUnknown | OverwriteUnknown | NotInList
  | FormatSingleBrace => "ValueError"
  | PrimaryKeyNull => "PrimaryKeyNullError"
  | IndexOutOfRange | FormatIndexOutOfRange => "IndexError"
  | NoStripAttribute | StrAccessor => "AttributeError"
  end.

(** Outcome of a call. [Unmodelled] marks the format strings with
    replacement fields other than [{}], which [py_format] does not cover. *)
Inductive result (A : Type) :=
| Ok (a : A)
| Raise (e : exn)
| Unmodelled.
Arguments Ok {A} a.
Arguments Raise {A} e.
Arguments Unmodelled {A}.

(** Sequencing: the first raise ends the call. Written [x ← m; k]. *)
Global Instance result_bind : MBind result := λ A B k m,
  match m with
  | Ok a => k a
  | Raise e => Raise e
  | Unmodelled => Unmodelled
  end.

(** A [for] loop that updates an accumulator and may raise. *)
Fixpoint for_each {A S} (body : S -> A -> result S) (l : list A) (s : S) : result S :=
  match l with
  | [] => Ok s
  | a :: r => s' ← body s a; for_each body r s'
  end.

(** ** Python list and string primitives *)

(** [l[i]] *)
Definition getitem {A} (l : list A) (i : nat) : result A :=
  match l !! i with
  | Some a => Ok a
  | None => Raise IndexOutOfRange
  end.

(** [l[i] = x] *)
Definition setitem {A} (l : list A) (i : nat) (x : A) : result (list A) :=
  match l !! i with
  | Some _ => Ok (<[i := x]> l)
  | None => Raise IndexOutOfRange
  end.

(** [l.index(x)]: the first position holding [x]. *)
Definition index `{EqDecision A} (l : list A) (x : A) : result nat :=
  match list_find (x =.) l with
  | Some (i, _) => Ok i
  | None => Raise NotInList
  end.

(** [l.remove(x)]: drops the first occurrence of [x]. *)
Fixpoint remove `{EqDecision A} (x : A) (l : list A) : result (list A) :=
  match l with
  | [] => Raise NotInList
  | y :: r => if decide (x = y) then Ok r else r' ← remove x r; Ok (y :: r')
  end.

(** [str(x)] of a sanitized name. *)
Definition str (x : option string) : string :=
  match x with
  | Some s => s
  | None => "None"
  end.

Definition newline : string := String (ascii_of_N 10) EmptyString.

(** [template.format( *args )] for templates whose replacement fields are all
    [{}]: doubled braces stand for one brace, [{}] takes the next argument,
    a single closing brace or a trailing opening brace is a [ValueError].
    Any other replacement field (explicit index, keyword, conversion, format
    specification) is outside the model. *)
Fixpoint py_format (template : string) (args : list string) : result string :=
  match template with
  | EmptyString => Ok EmptyString
  | String c rest =>
      if Ascii.eqb c "{" then
        match rest with
        | EmptyString => Raise FormatSingleBrace
        | String d rest' =>
            if Ascii.eqb d "{" then
              s ← py_format rest' args; Ok (String "{" s)
            else if Ascii.eqb d "}" then
              match args with
              | [] => Raise FormatIndexOutOfRange
              | a :: args' => s ← py_format rest' args'; Ok (a +:+ s)
              end
            else Unmodelled
        end
      else if Ascii.eqb c "}" then
        match rest with
        | EmptyString => Raise FormatSingleBrace
        | String d rest' =>
            if Ascii.eqb d "}" then
              s ← py_format rest' args; Ok (String "}" s)
            else Raise FormatSingleBrace
        end
      else s ← py_format rest args; Ok (String c s)
  end.

(** ** The DataFrame *)

Inductive int_dtype := int8 | int16 | int32 | int64 | uint8 | uint16 | uint32 | uint64.
Inductive float_dtype := float16 | float32 | float64.

(** A column's data, by the dtype the function dispatches on.
    - [TextSeries]: dtype [object] or [category] with values the [.str]
      accessor takes; a cell is a string or is missing.
    - [NonStringSeries]: dtype [object] or [category] with values (for
      [category]: categories) that pandas does not take for strings, such as
      a category column of numbers; the [.str] accessor refuses them. Only
      the record of missing cells matters.
    - [IntSeries]: a NumPy integer dtype, which has no missing value.
    - [FloatSeries]: a float dtype; the function only looks at which cells
      are NaN, so a cell is recorded as [true] when it is missing.
    - [OtherSeries]: any dtype the function has no branch for ([bool],
      [datetime64], the nullable [Int64], ...), with the same record of
      missing cells.
    The columns of a DataFrame all have the same number of rows; the function
    never relates two cells of different columns, and the datasets below are
    rectangular. *)
Inductive series :=
| TextSeries (categorical : bool) (values : list (option string))
| NonStringSeries (categorical : bool) (isna : list bool)
| IntSeries (dtype : int_dtype) (values : list Z)
| FloatSeries (dtype : float_dtype) (isna : list bool)
| OtherSeries (isna : list bool).

(** A column: its label, taken to be a string, and its data. *)
Record column := Column { col_name : string; col_data : series }.

Abbreviation DataFrame := (list column).

(** [df.columns] *)
Definition columns (df : DataFrame) : list string := col_name <$> df.

(** One entry of [df.notnull().all()] *)
Definition notnull_all (s : series) : bool :=
  match s with
  | TextSeries _ values => forallb (fun v => bool_decide (is_Some v)) values
  | IntSeries _ _ => true
  | NonStringSeries _ isna | FloatSeries _ isna | OtherSeries isna =>
      forallb negb isna
  end.

(** [Series.min()] and [Series.max()] of an integer column; [None] is the NaN
    pandas returns for an empty column. *)
Definition series_min (values : list Z) : option Z :=
  match values with
  | [] => None
  | v :: r => Some (foldr Z.min v r)
  end.

Definition series_max (values : list Z) : option Z :=
  match values with
  | [] => None
  | v :: r => Some (foldr Z.max v r)
  end.

(** [Series.str.len().max()]: the longest non-missing string, [None] (NaN)
    when every cell is missing. *)
Fixpoint str_len_max (values : list (option string)) : option nat :=
  match values with
  | [] => None
  | None :: r => str_len_max r
  | Some s :: r =>
      match str_len_max r with
      | None => Some (String.length s)
      | Some m => Some (Nat.max (String.length s) m)
      end
  end.

(** ** [create_table_sql_script] *)

(** [varchar_max is True] *)
Definition is_True (v : pyval) : bool :=
  match v with
  | PyBool true => true
  | _ => false
  end.

(** [v == True]: Python's [1 == True] holds. *)
Definition eq_True (v : pyval) : bool :=
  match v with
  | PyBool true | PyInt 1 => true
  | _ => false
  end.

(** [v in [True, False]], by [==]. *)
Definition in_True_False (v : pyval) : bool :=
  match v with
  | PyBool _ | PyInt 0 | PyInt 1 => true
  | _ => false
  end.

(** [slugify] applied to an argument that was not checked to be a string. *)
Definition slugify_py (v : pyval) : result (option string) :=
  match v with
  | PyStr s => Ok (slugify (Some s))
  | PyNone | PyBool false | PyInt 0 => Ok None
  | _ => Raise NoStripAttribute
  end.

(** Lines 106-129: what one column appends to [sql_col_types]; [None] when no
    branch matches and nothing is appended. Line 108 takes [.str.len().max()]
    before line 109 looks at [varchar_max], so a column the accessor refuses
    raises whatever [varchar_max] is. *)
Definition infer_column (varchar_max : pyval) (s : series) : result (option string) :=
  match s with
  | TextSeries _ values =>
      let col_length := str_len_max values in
      if is_True varchar_max then Ok (Some "TEXT")
      else match col_length with
           | Some n => Ok (Some ("VARCHAR(" +:+ pretty n +:+ ")"))
           | None => Raise LengthIsNaN
           end
  | NonStringSeries _ _ => Raise StrAccessor
  | IntSeries dtype values =>
      if bool_decide (series_min values = Some 0%Z)
         && bool_decide (series_max values = Some 1%Z)
      then Ok (Some "BIT")
      else match dtype with
           | int8 | int16 | uint8 => Ok (Some "SMALLINT")
           | int32 | uint16 => Ok (Some "INT")
           | int64 | uint32 => Ok (Some "BIGINT")
           | _ => Ok (Some "NUMERIC")
           end
  | FloatSeries _ _ => Ok (Some "NUMERIC")
  | OtherSeries _ => Ok None
  end.

(** Lines 104-129: the loop over the columns. *)
Fixpoint infer_types (varchar_max : pyval) (df : DataFrame) : result (list string) :=
  match df with
  | [] => Ok []
  | c :: r =>
      t ← infer_column varchar_max (col_data c);
      ts ← infer_types varchar_max r;
      Ok (option_list t ++ ts)
  end.

(** Line 97 *)
Definition sql_col_names (df : DataFrame) : list (option string) :=
  (fun c => slugify (Some (col_name c))) <$> df.

(** Lines 100-101 *)
Definition not_null_columns (df : DataFrame) : list (option string) :=
  (fun c => slugify (Some (col_name c)))
    <$> List.filter (fun c => notnull_all (col_data c)) df.

(** Lines 133-144 *)
Definition apply_pkey (names not_null : list (option string)) (pkey : pyval)
    (types : list string) : result (list string) :=
  match pkey with
  | PyNone => Ok types
  | PyStr p =>
      if bool_decide (slugify (Some p) ∈ names) then
        if bool_decide (slugify (Some p) ∈ not_null) then
          pkey_col_index ← index names (slugify (Some p));
          t ← getitem types pkey_col_index;
          setitem types pkey_col_index (t +:+ " PRIMARY KEY")
        else Raise PrimaryKeyNull
      else Raise PkeyUnknown
  | _ => Raise PkeyNotStr
  end.

(** Lines 151-153: the body of the loop over [not_null_columns]. *)
Definition mark_not_null (names : list (option string)) (types : list string)
    (column : option string) : result (list string) :=
  not_null_column_index ← index names (slugify column);
  t ← getitem types not_null_column_index;
  setitem types not_null_column_index (t +:+ " NOT NULL").

(** Lines 148-153 *)
Definition apply_not_null (names not_null : list (option string))
    (pkey infer_nulls : pyval) (types : list string) : result (list string) :=
  if eq_True infer_nulls then
    not_null' ← match pkey with
                 | PyNone => Ok not_null
                 | _ => slugify_py pkey ≫= λ k, remove k not_null
                 end;
    for_each (mark_not_null names) not_null' types
  else Ok types.

(** Lines 159-162: the body of the loop over [overwrite.items()]. *)
Definition overwrite_one (names : list (option string)) (types : list string)
    (item : string * string) : result (list string) :=
  let '(column, sql_type) := item in
  if bool_decide (slugify (Some column) ∈ names) then
    i ← index names (slugify (Some column));
    setitem types i sql_type
  else Raise OverwriteUnknown.

(** Lines 157-162. The dictionary is the list of its items, in order. *)
Definition apply_overwrite (names : list (option string))
    (overwrite : option (list (string * string))) (types : list string)
    : result (list string) :=
  match overwrite with
  | None => Ok types
  | Some items => for_each (overwrite_one names) items types
  end.

(** Lines 171-172: the loop over [range(1, len(sql_col_names))], given the
    names from position [i] on. *)
Fixpoint render_rest (i : nat) (names : list (option string)) (types : list string)
    (statement : string) : result string :=
  match names with
  | [] => Ok statement
  | n :: names' =>
      t ← getitem types i;
      statement' ← py_format (statement +:+ newline +:+ ", {} {}") [str n; t];
      render_rest (S i) names' types statement'
  end.

(** Lines 166-174 *)
Definition render (table_name : option string) (names : list (option string))
    (types : list string) : result string :=
  n0 ← getitem names 0;
  t0 ← getitem types 0;
  statement ←
    match table_name with
    | None | Some EmptyString =>
        py_format ("CREATE TABLE no_name ( " +:+ newline +:+ "{} {}") [str n0; t0]
    | Some name =>
        py_format ("CREATE TABLE {} ( " +:+ newline +:+ "{} {}") [name; str n0; t0]
    end;
  statement ← render_rest 1 (drop 1 names) types statement;
  Ok (statement +:+ newline +:+ ");").

(** Lines 83-162: the names and the type strings handed to the rendering. *)
Definition sql_columns (df : DataFrame) (pkey varchar_max infer_nulls : pyval)
    (overwrite : option (list (string * string)))
    : result (list (option string) * list string) :=
  if bool_decide (length (remove_dups (columns df)) < length (columns df)) then
    Raise DuplicateColumns
  else if negb (in_True_False infer_nulls) then
    Raise InferNullsNotBool
  else
    let names := sql_col_names df in
    let not_null := not_null_columns df in
    types ← infer_types varchar_max df;
    types ← apply_pkey names not_null pkey types;
    types ← apply_not_null names not_null pkey infer_nulls types;
    types ← apply_overwrite names overwrite types;
    Ok (names, types).

Definition create_table_sql_script (df : DataFrame) (table_name : option string)
    (pkey varchar_max infer_nulls : pyval)
    (overwrite : option (list (string * string))) : result string :=
  cols ← sql_columns df pkey varchar_max infer_nulls overwrite;
  render table_name cols.1 cols.2.

Arguments index : simpl never.
Arguments getitem : simpl never.
Arguments setitem : simpl never.
Arguments mark_not_null : simpl never.
Arguments overwrite_one : simpl never.

(** * Vocabulary of the statements *)

(** ** Strings and lists *)

(** The first character of [l], if any, is outside the set [p]. *)
Definition head_kept (p : ascii → bool) (l : list ascii) : Prop :=
  match l with [] => True | c :: _ => p c = false end.

(** What a character of a sanitized name looks like: not whitespace, not a
    dot, kept by line 25 and left alone by [lower]. *)
Definition is_stable (c : ascii) : bool :=
  negb (is_space c) && negb (is_dot c) && is_kept c
  && bool_decide (lower_char c = c).

(** [first_at l x i]: [i] is the first position of [l] that holds [x]. *)
Definition first_at {A} (l : list A) (x : A) (i : nat) : Prop :=
  l !! i = Some x ∧ ∀ j, j < i → l !! j ≠ Some x.

(** Position [j] bears a name that an earlier position bears too. *)
Definition repeated (names : list (option string)) (j : nat) : Prop :=
  ∃ i n, i < j ∧ names !! i = Some n ∧ names !! j = Some n.

(** ** Columns *)

(** The dtypes the docstring lists as supported: each appends one type. *)
Definition supported (c : column) : Prop :=
  match col_data c with
  | OtherSeries _ => False
  | _ => True
  end.

(** A text column without any non-missing value (in particular one without
    rows). *)
Definition all_missing_text (c : column) : Prop :=
  match col_data c with
  | TextSeries _ values => Forall (λ v, v = None) values
  | _ => False
  end.

(** A column whose values line 108's [.str] refuses. *)
Definition str_refused (c : column) : Prop :=
  match col_data c with
  | NonStringSeries _ _ => True
  | _ => False
  end.

(** Every value is 0 or 1. *)
Definition confined_01 (values : list Z) : Prop :=
  ∀ v, v ∈ values → v = 0%Z ∨ v = 1%Z.

(** Some value is neither 0 nor 1. *)
Definition outside_01 (values : list Z) : Prop :=
  ∃ v, v ∈ values ∧ v ≠ 0%Z ∧ v ≠ 1%Z.

(** The width table of the specification. *)
Definition width_type (dtype : int_dtype) : string :=
  match dtype with
  | int8 | int16 | uint8 => "SMALLINT"
  | int32 | uint16 => "INT"
  | int64 | uint32 => "BIGINT"
  | uint64 => "NUMERIC"
  end.

(** The test of line 116. *)
Definition is_bit (values : list Z) : bool :=
  bool_decide (series_min values = Some 0%Z) && bool_decide (series_max values = Some 1%Z).

(** ** Calls *)

(** The checks of lines 83-87 pass. *)
Definition checks_pass (df : DataFrame) (inf : pyval) : Prop :=
  NoDup (columns df) ∧ in_True_False inf = true.

(** The exceptions of lines 166-174. *)
Definition render_exn (e : exn) : Prop :=
  e = IndexOutOfRange ∨ e = FormatSingleBrace ∨ e = FormatIndexOutOfRange.

(** The sanitized name of a column. *)
Definition slug (c : column) : option string := slugify (Some (col_name c)).

(** [v] is a Python [bool]. *)
Definition is_bool (v : pyval) : bool :=
  match v with
  | PyBool _ => true
  | _ => false
  end.

(** [v] is a Python [str]. *)
Definition is_str (v : pyval) : bool :=
  match v with
  | PyStr _ => true
  | _ => false
  end.

(** [pkey] designates the column named [n]. *)
Definition is_pkey (pkey : pyval) (n : option string) : bool :=
  match pkey with
  | PyStr p => bool_decide (slugify (Some p) = n)
  | _ => false
  end.

(** [pkey] passes the checks of lines 133-144. *)
Definition pkey_ok (df : DataFrame) (pkey : pyval) : Prop :=
  pkey = PyNone ∨ ∃ p, pkey = PyStr p ∧ slugify (Some p) ∈ not_null_columns df.

(** The type string of a column after the primary-key and not-null passes. *)
Definition constrained (pkey inf : pyval) (c : column) (t : string) : string :=
  if is_pkey pkey (slug c) then t +:+ " PRIMARY KEY"
  else if eq_True inf && notnull_all (col_data c) then t +:+ " NOT NULL"
  else t.

(** [override_for n items]: the type string of the last item whose key
    sanitizes to [n]. *)
Fixpoint override_for (n : option string) (items : list (string * string))
    : option string :=
  match items with
  | [] => None
  | (column, sql_type) :: rest =>
      match override_for n rest with
      | Some t => Some t
      | None => if bool_decide (slugify (Some column) = n) then Some sql_type else None
      end
  end.

(** The sanitized forms of the override keys. *)
Definition override_keys (items : list (string * string)) : list (option string) :=
  (λ item, slugify (Some item.1)) <$> items.

(** No character of [s] is a brace, so [str.format] copies [s] as it is. *)
Fixpoint brace_free (s : string) : bool :=
  match s with
  | EmptyString => true
  | String c r => negb (Ascii.eqb c "{") && negb (Ascii.eqb c "}") && brace_free r
  end.

(** The name line 166 puts in the statement. *)
Definition shown_table_name (table_name : option string) : string :=
  match table_name with
  | None | Some EmptyString => "no_name"
  | Some name => name
  end.

(** The lines of the columns after the first one. *)
Fixpoint column_lines (names : list (option string)) (types : list string) : string :=
  match names, types with
  | n :: names', t :: types' =>
      newline +:+ ", " +:+ str n +:+ " " +:+ t +:+ column_lines names' types'
  | _, _ => EmptyString
  end.

(** The statement of a table with first column [n0 t0]. *)
Definition statement_text (table_name : option string) (n0 : option string)
    (t0 : string) (names : list (option string)) (types : list string) : string :=
  "CREATE TABLE " +:+ shown_table_name table_name +:+ " ( " +:+ newline
  +:+ str n0 +:+ " " +:+ t0 +:+ column_lines names types +:+ newline +:+ ");".

(** Every character of [s] is whitespace. *)
Definition all_space (s : string) : Prop :=
  Forall (λ c, is_space c = true) (list_ascii_of_string s).

(** The SQL types the docstring lists. *)
Definition documented_type (t : string) : Prop :=
  t ∈ ["TEXT"; "BIT"; "SMALLINT"; "INT"; "BIGINT"; "NUMERIC"]
  ∨ ∃ n : nat, t = "VARCHAR(" +:+ pretty n +:+ ")".

(** The type string of a column at the end of the three passes: the last
    override addressed to its name, else the inferred type with its
    constraint. *)
Definition final_type (pkey inf : pyval) (ow : option (list (string * string)))
    (c : column) (t : string) : string :=
  default (constrained pkey inf c t) (ow ≫= override_for (slug c)).

(** [t] followed by [k] times the suffix of line 153. *)
Fixpoint not_null_times (k : nat) (t : string) : string :=
  match k with
  | 0 => t
  | S k' => not_null_times k' (t +:+ " NOT NULL")
  end.

(** How many entries of [l] are [n]. *)
Fixpoint occurrences (n : option string) (l : list (option string)) : nat :=
  match l with
  | [] => 0
  | m :: r => if bool_decide (m = n) then S (occurrences n r) else occurrences n r
  end.

(** How many not-null markings are addressed to the name [n]: one for each
    column without missing value that bears [n], less the one line 150 takes
    out when [pkey] sanitizes to [n]; none unless [infer_nulls == True]. *)
Definition not_null_count (df : DataFrame) (pkey inf : pyval) (n : option string) : nat :=
  if eq_True inf
  then occurrences n (not_null_columns df) - (if is_pkey pkey n then 1 else 0)
  else 0.

(** The inferred type [t] with every constraint addressed to the name [n]. *)
Definition first_bearer_type (df : DataFrame) (pkey inf : pyval) (n : option string)
    (t : string) : string :=
  not_null_times (not_null_count df pkey inf n)
    (if is_pkey pkey n then t +:+ " PRIMARY KEY" else t).

(** ** Datasets used as examples *)

Definition people : DataFrame :=
  [ Column "id" (IntSeries int64 [0; 1; 1]%Z);
    Column "Name" (TextSeries false [Some "Al"; Some "Bo"; None]);
    Column "Age" (FloatSeries float64 [false; false; false]) ].

Definition nullable_id : DataFrame :=
  [ Column "id" (FloatSeries float64 [false; true; false]);
    Column "Name" (TextSeries false [Some "Al"; Some "Bo"; None]) ].

Definition two_a : DataFrame :=
  [ Column "A" (TextSeries false [Some "x"; None]);
    Column "a" (TextSeries false [Some "y"; Some "z"]) ].

Definition two_a_int : DataFrame :=
  [ Column "A" (IntSeries int64 [5]%Z); Column "a" (IntSeries int64 [7]%Z) ].

Definition notes_only : DataFrame :=
  [ Column "notes" (TextSeries false [None; None]) ].

(** Three columns labelled with the empty string, [#] and [!]. *)
Definition empty_names : DataFrame :=
  [ Column EmptyString (IntSeries int64 [1; 2]%Z);
    Column "#" (IntSeries int64 [3; 4]%Z);
    Column "!" (IntSeries int64 [5; 6]%Z) ].

(** * Properties *)

Example slugify_ex1 : slugify (Some "  First Name. ") = Some "first_name".
Proof. reflexivity. Qed.
Example slugify_ex2 : slugify (Some "a  b	c") = Some "a_b_c".
Proof. reflexivity. Qed.
Example slugify_ex3 : slugify (Some "-Total ($)-") = Some "total".
Proof. reflexivity. Qed.
Example slugify_ex4 : slugify (Some "!") = Some EmptyString.
Proof. reflexivity. Qed.

(** ** The sanitizer *)

Ltac each_char c :=
  destruct c as [[] [] [] [] [] [] [] []]; vm_compute; try reflexivity; try discriminate.

Lemma lower_char_stable c :
  is_kept c = true → is_dot c = false → is_stable (lower_char c) = true.
Proof. each_char c. Qed.

Lemma is_trim_lower_char c : is_trim (lower_char c) = is_trim c.
Proof. each_char c. Qed.

Lemma is_stable_inv c :
  is_stable c = true →
  is_space c = false ∧ is_dot c = false ∧ is_kept c = true ∧ lower_char c = c.
Proof.
  unfold is_stable. rewrite !andb_true_iff, !negb_true_iff.
  intros [[[? ?] ?] ?%bool_decide_eq_true]. auto.
Qed.

Section strip_facts.
Variable p : ascii → bool.

Lemma lstrip_head l : head_kept p (lstrip p l).
Proof. induction l as [|c r IH]; simpl; [done|]. destruct (p c) eqn:E; done. Qed.

Lemma lstrip_id l : head_kept p l → lstrip p l = l.
Proof. destruct l as [|c r]; simpl; [done|]. by intros ->. Qed.

Lemma rstrip_head l : head_kept p l → head_kept p (rstrip p l).
Proof.
  destruct l as [|c r]; simpl; [done|]. intros E.
  destruct (rstrip p r); [rewrite E|]; done.
Qed.

Lemma rstrip_rstrip l : rstrip p (rstrip p l) = rstrip p l.
Proof.
  induction l as [|c r IH]; simpl; [done|].
  destruct (rstrip p r) as [|d r'] eqn:E.
  - destruct (p c) eqn:Ec; simpl; [done|]. by rewrite Ec.
  - change (rstrip p (c :: d :: r')) with
      (match rstrip p (d :: r') with
       | [] => if p c then [] else [c]
       | x => c :: x end).
    by rewrite IH.
Qed.

Lemma strip_strip l : strip p (strip p l) = strip p l.
Proof.
  unfold strip. rewrite (lstrip_id (rstrip p _)).
  - apply rstrip_rstrip.
  - apply rstrip_head, lstrip_head.
Qed.

Lemma rstrip_Forall l : Forall (λ c, p c = false) l → rstrip p l = l.
Proof.
  induction 1 as [|c r Hc _ IH]; simpl; [done|].
  rewrite IH. destruct r; [by rewrite Hc|done].
Qed.

Lemma strip_Forall l : Forall (λ c, p c = false) l → strip p l = l.
Proof.
  intros H. unfold strip. rewrite lstrip_id; [by apply rstrip_Forall|].
  destruct H; simpl; done.
Qed.

Lemma lstrip_sub (Q : ascii → Prop) l : Forall Q l → Forall Q (lstrip p l).
Proof. induction 1 as [|c r]; simpl; [done|]. destruct (p c); auto. Qed.

Lemma rstrip_sub (Q : ascii → Prop) l : Forall Q l → Forall Q (rstrip p l).
Proof.
  induction 1 as [|c r Hc _ IH]; simpl; [done|].
  destruct (rstrip p r); [destruct (p c)|]; auto.
Qed.

Lemma strip_sub (Q : ascii → Prop) l : Forall Q l → Forall Q (strip p l).
Proof. intros. by apply rstrip_sub, lstrip_sub. Qed.

(** [strip] commutes with a character map that preserves the set. *)
Lemma strip_map (f : ascii → ascii) l :
  (∀ c, p (f c) = p c) → strip p (List.map f l) = List.map f (strip p l).
Proof.
  intros Hf. unfold strip.
  assert (Hl : ∀ x, lstrip p (List.map f x) = List.map f (lstrip p x)).
  { induction x as [|c r IH]; simpl; [done|]. rewrite Hf. by destruct (p c). }
  assert (Hr : ∀ x, rstrip p (List.map f x) = List.map f (rstrip p x)).
  { induction x as [|c r IH]; simpl; [done|]. rewrite IH, Hf.
    destruct (rstrip p r); simpl; [by destruct (p c)|done]. }
  by rewrite Hl, Hr.
Qed.
End strip_facts.

Lemma sub_spaces_no_space b l :
  Forall (λ c, is_space c = false) l → sub_spaces b l = l.
Proof.
  intros H. revert b. induction H as [|c r Hc _ IH]; intros b; simpl; [done|].
  by rewrite Hc, IH.
Qed.

Lemma sub_spaces_no_dot b l :
  Forall (λ c, is_dot c = false) l → Forall (λ c, is_dot c = false) (sub_spaces b l).
Proof.
  intros H. revert b. induction H as [|c r Hc _ IH]; intros b; simpl; [done|].
  destruct (is_space c), b; auto.
Qed.

Lemma filter_Forall_id {A} (f : A → bool) l :
  Forall (λ c, f c = true) l → List.filter f l = l.
Proof. induction 1 as [|c r Hc _ IH]; simpl; [done|]. by rewrite Hc, IH. Qed.

Lemma Forall_filter_both {A} (f : A → bool) (Q : A → Prop) l :
  Forall Q l → Forall (λ c, f c = true ∧ Q c) (List.filter f l).
Proof.
  induction 1 as [|c r Hc _ IH]; simpl; [done|].
  destruct (f c) eqn:E; auto.
Qed.

(** Every character of a sanitized name is stable. *)
Lemma slug_chars_stable l : Forall (λ c, is_stable c = true) (slug_chars l).
Proof.
  unfold slug_chars, lower. apply Forall_map.
  apply strip_sub. unfold remove_unsafe.
  eapply Forall_impl; [apply Forall_filter_both|].
  - apply sub_spaces_no_dot. unfold remove_dots.
    eapply Forall_impl; [apply (Forall_filter_both _ (λ _, True))|].
    + by apply Forall_forall.
    + simpl. by intros c [?%negb_true_iff _].
  - simpl. intros c [? ?]. by apply lower_char_stable.
Qed.

(** Sanitizing the characters of a sanitized name changes nothing. *)
Lemma slug_chars_idem l : slug_chars (slug_chars l) = slug_chars l.
Proof.
  pose proof (slug_chars_stable l) as H.
  assert (Hs : Forall (λ c, is_space c = false) (slug_chars l)).
  { eapply Forall_impl; [exact H|]. by intros c (?&?&?&?)%is_stable_inv. }
  assert (Hd : Forall (λ c, negb (is_dot c) = true) (slug_chars l)).
  { eapply Forall_impl; [exact H|]. intros c (?&->&?&?)%is_stable_inv. done. }
  assert (Hk : Forall (λ c, is_kept c = true) (slug_chars l)).
  { eapply Forall_impl; [exact H|]. by intros c (?&?&?&?)%is_stable_inv. }
  unfold slug_chars at 1.
  rewrite (strip_Forall is_space) by done.
  unfold remove_dots. rewrite filter_Forall_id by done.
  rewrite sub_spaces_no_space by done.
  unfold remove_unsafe. rewrite filter_Forall_id by done.
  unfold slug_chars, lower.
  rewrite strip_map by apply is_trim_lower_char.
  rewrite strip_strip. rewrite List.map_map.
  apply List.map_ext_in. intros c Hc.
  assert (Hc' : is_kept c = true ∧ is_dot c = false).
  { revert c Hc. apply List.Forall_forall.
    set (x := sub_spaces _ _).
    assert (Hx : Forall (λ c, is_dot c = false) x).
    { apply sub_spaces_no_dot. unfold remove_dots.
      eapply Forall_impl; [apply (Forall_filter_both _ (λ _, True))|].
      - by apply Forall_forall.
      - simpl. by intros c [?%negb_true_iff _]. }
    apply strip_sub. unfold remove_unsafe. by apply Forall_filter_both. }
  destruct Hc' as [? ?].
  by destruct (is_stable_inv _ (lower_char_stable c ltac:(done) ltac:(done))) as (_&_&_&?).
Qed.

Lemma slugify_Some_cons c s :
  slugify (Some (String c s))
  = Some (string_of_list_ascii (slug_chars (list_ascii_of_string (String c s)))).
Proof. reflexivity. Qed.

(** The second application of [slugify]: it returns its argument, except that
    the empty string becomes [None]. *)
Lemma slugify_slugify (s : option string) :
  slugify (slugify s) = if bool_decide (slugify s = Some EmptyString) then None else slugify s.
Proof.
  destruct s as [[|c s]|]; try reflexivity.
  rewrite slugify_Some_cons.
  set (l := list_ascii_of_string (String c s)).
  destruct (slug_chars l) as [|d r] eqn:E; [reflexivity|].
  rewrite bool_decide_eq_false_2 by (simpl; congruence).
  change (string_of_list_ascii (d :: r)) with (String d (string_of_list_ascii r)).
  rewrite slugify_Some_cons.
  change (String d (string_of_list_ascii r)) with (string_of_list_ascii (d :: r)).
  rewrite list_ascii_of_string_of_list_ascii, <- E. by rewrite slug_chars_idem.
Qed.

(** ** Sequencing and the list primitives *)

Lemma bind_Ok {A B} (m : result A) (k : A → result B) b :
  m ≫= k = Ok b ↔ ∃ a, m = Ok a ∧ k a = Ok b.
Proof. destruct m; simpl; naive_solver. Qed.

Lemma bind_Raise {A B} (m : result A) (k : A → result B) e :
  m ≫= k = Raise e ↔ m = Raise e ∨ ∃ a, m = Ok a ∧ k a = Raise e.
Proof. destruct m; simpl; naive_solver. Qed.

Lemma for_each_Raise {A S} (body : S → A → result S) l s e :
  for_each body l s = Raise e → ∃ s' a, a ∈ l ∧ body s' a = Raise e.
Proof.
  revert s. induction l as [|a r IH]; intros s; simpl; [done|].
  intros [H|(s'&_&H)]%bind_Raise.
  - exists s, a. split; [left|done].
  - destruct (IH _ H) as (s''&a'&?&?). exists s'', a'. split; [by right|done].
Qed.

Section index_facts.
Context `{EqDecision A}.
Implicit Types (l : list A) (x : A).

Lemma index_Ok l x i : index l x = Ok i ↔ first_at l x i.
Proof.
  unfold index, first_at. destruct (list_find _ l) as [[j y]|] eqn:E.
  - apply list_find_Some in E as (Hj&->&Hlt). split.
    + intros [= <-]. split; [done|]. intros k Hk Hx. by eapply Hlt.
    + intros [Hi Hmin]. f_equal.
      destruct (Nat.lt_trichotomy i j) as [?|[?|?]]; [|done|].
      * by destruct (Hlt i y Hi).
      * by destruct (Hmin j).
  - split; [done|]. intros [Hi _].
    apply list_find_None in E. rewrite Forall_forall in E.
    destruct (E x); [|done]. apply list_elem_of_lookup. eauto.
Qed.

Lemma index_elem_of l x : x ∈ l → ∃ i, index l x = Ok i.
Proof.
  intros Hx. unfold index.
  destruct (list_find_elem_of (x =.) l x Hx eq_refl) as [[i y] ->]. eauto.
Qed.

Lemma index_not_Ok l x : x ∉ l → index l x = Raise NotInList.
Proof.
  intros Hx. unfold index. destruct (list_find _ l) as [[j y]|] eqn:E; [|done].
  apply list_find_Some in E as (Hj&->&_). destruct Hx.
  apply list_elem_of_lookup. eauto.
Qed.

Lemma index_NoDup l x i : NoDup l → l !! i = Some x → index l x = Ok i.
Proof.
  intros Hl Hi. apply index_Ok. split; [done|]. intros j Hj Hx.
  pose proof (NoDup_lookup l i j x Hl Hi Hx). lia.
Qed.

Lemma index_cases l x :
  (∃ i, index l x = Ok i ∧ first_at l x i) ∨ (index l x = Raise NotInList ∧ x ∉ l).
Proof.
  destruct (decide (x ∈ l)) as [Hx|Hx].
  - left. destruct (index_elem_of l x Hx) as [i Hi]. exists i. split; [done|].
    by apply index_Ok.
  - right. split; [by apply index_not_Ok|done].
Qed.

(** [remove] of an element that is present succeeds. *)
Lemma remove_elem_of l x : x ∈ l → ∃ l', remove x l = Ok l'.
Proof.
  induction l as [|y r IH]; [by intros ?%elem_of_nil|].
  intros Hx. simpl. destruct (decide (x = y)); [eauto|].
  apply elem_of_cons in Hx as [?|Hx]; [done|].
  destruct (IH Hx) as [l' ->]. simpl. eauto.
Qed.

Lemma remove_Ok l x l' :
  remove x l = Ok l' →
  ∀ y, y ∈ l' → y ∈ l.
Proof.
  revert l'. induction l as [|z r IH]; intros l'; simpl; [done|].
  destruct (decide (x = z)) as [->|Hne].
  - intros [= ->] y Hy. by right.
  - intros (r'&Hr&[= <-])%bind_Ok y [->|Hy]%elem_of_cons; [left|right; eauto].
Qed.

Lemma remove_Ok_NoDup l x l' :
  NoDup l → remove x l = Ok l' → NoDup l' ∧ ∀ y, y ∈ l' ↔ y ∈ l ∧ y ≠ x.
Proof.
  revert l'. induction l as [|z r IH]; intros l'; simpl; [done|].
  intros [Hz Hr]%NoDup_cons. destruct (decide (x = z)) as [->|Hne].
  - intros [= ->]. split; [done|]. intros y. rewrite elem_of_cons. naive_solver.
  - intros (r'&Hr'&[= <-])%bind_Ok. destruct (IH _ Hr Hr') as [Hnd Hiff].
    split.
    + apply NoDup_cons. split; [|done]. rewrite Hiff. naive_solver.
    + intros y. rewrite !elem_of_cons, Hiff. naive_solver.
Qed.

Lemma remove_Raise l x e : remove x l = Raise e → e = NotInList ∧ x ∉ l.
Proof.
  induction l as [|z r IH]; simpl.
  - intros [= <-]. split; [done|]. apply not_elem_of_nil.
  - destruct (decide (x = z)) as [->|Hne]; [done|].
    intros [H|(r'&_&?)]%bind_Raise; [|done].
    destruct (IH H) as [-> ?]. split; [done|]. rewrite elem_of_cons. naive_solver.
Qed.
End index_facts.

Lemma getitem_Ok {A} (l : list A) i a : getitem l i = Ok a ↔ l !! i = Some a.
Proof. unfold getitem. destruct (l !! i); naive_solver. Qed.

Lemma setitem_Ok {A} (l : list A) i x l' :
  setitem l i x = Ok l' ↔ i < length l ∧ l' = <[i := x]> l.
Proof.
  unfold setitem. destruct (l !! i) eqn:E.
  - apply lookup_lt_Some in E. naive_solver.
  - apply lookup_ge_None in E. split; [done|]. intros [? _]. lia.
Qed.

Lemma getitem_Raise {A} (l : list A) i e :
  getitem l i = Raise e → e = IndexOutOfRange ∧ length l ≤ i.
Proof.
  unfold getitem. destruct (l !! i) eqn:E; [done|].
  apply lookup_ge_None in E. by intros [= <-].
Qed.

Lemma setitem_Raise {A} (l : list A) i x e :
  setitem l i x = Raise e → e = IndexOutOfRange ∧ length l ≤ i.
Proof.
  unfold setitem. destruct (l !! i) eqn:E; [done|].
  apply lookup_ge_None in E. by intros [= <-].
Qed.

(** The test of line 83. *)
Lemma has_duplicates (l : list string) :
  length (remove_dups l) < length l ↔ ¬ NoDup l.
Proof.
  assert (Hle : ∀ x : list string, length (remove_dups x) ≤ length x).
  { induction x as [|a r IH]; simpl; [done|]. destruct (decide_rel _ _ _); simpl; lia. }
  induction l as [|a r IH]; simpl.
  - split; [lia|]. intros []. constructor.
  - rewrite NoDup_cons. destruct (decide_rel _ _ _) as [Ha|Ha]; simpl.
    + split; [naive_solver|]. intros _. specialize (Hle r). lia.
    + rewrite <- Nat.succ_lt_mono, IH. naive_solver.
Qed.

(** ** Type inference *)

Lemma str_len_max_None values :
  str_len_max values = None ↔ Forall (λ v, v = None) values.
Proof.
  induction values as [|[s|] r IH]; simpl.
  - done.
  - destruct (str_len_max r); split; try done; by intros [? _]%Forall_cons.
  - rewrite IH, Forall_cons. naive_solver.
Qed.

Lemma infer_column_cases vm s :
  (∃ t, infer_column vm s = Ok t) ∨ infer_column vm s = Raise LengthIsNaN
  ∨ infer_column vm s = Raise StrAccessor.
Proof.
  destruct s as [cat values|cat isna|dt values|dt isna|isna]; simpl; eauto.
  - destruct (is_True vm); eauto. destruct (str_len_max values); eauto.
  - destruct (_ && _); eauto. destruct dt; eauto.
Qed.

Lemma infer_types_cases vm df :
  (∃ tys, infer_types vm df = Ok tys) ∨ infer_types vm df = Raise LengthIsNaN
  ∨ infer_types vm df = Raise StrAccessor.
Proof.
  induction df as [|c r IH]; simpl; eauto.
  destruct (infer_column_cases vm (col_data c)) as [[t ->]|[->| ->]]; simpl; auto.
  destruct IH as [[tys ->]|[->| ->]]; simpl; eauto.
Qed.

(** Line 108 raises on the refused columns and on no other. *)
Lemma infer_column_StrAccessor vm c :
  infer_column vm (col_data c) = Raise StrAccessor ↔ str_refused c.
Proof.
  unfold str_refused. destruct (col_data c); simpl; try done.
  - destruct (is_True vm); [done|]. by destruct (str_len_max _).
  - destruct (_ && _); [done|]. by destruct dtype.
Qed.

(** Line 112 raises on the text columns without a non-missing value, unless
    [varchar_max] is [True]. *)
Lemma infer_column_LengthIsNaN vm c :
  infer_column vm (col_data c) = Raise LengthIsNaN ↔
  is_True vm = false ∧ all_missing_text c.
Proof.
  unfold all_missing_text. destruct (col_data c); simpl; try naive_solver.
  - rewrite <- str_len_max_None.
    destruct (is_True vm); [naive_solver|]. destruct (str_len_max _); naive_solver.
  - destruct (_ && _); [naive_solver|]. destruct dtype; naive_solver.
Qed.

(** With supported dtypes only, the inferred types line up with the columns. *)
Lemma infer_types_Forall2 vm df tys :
  Forall supported df → infer_types vm df = Ok tys →
  Forall2 (λ c t, infer_column vm (col_data c) = Ok (Some t)) df tys.
Proof.
  intros H. revert tys. induction H as [|c r Hc _ IH]; intros tys; simpl.
  - intros [= <-]. constructor.
  - intros (t&Ht&(ts&Hts&[= <-])%bind_Ok)%bind_Ok.
    destruct t as [t|].
    + constructor; [done|by apply IH].
    + unfold supported in Hc. destruct (col_data c); simpl in Ht; try done.
      * destruct (is_True _); [done|]. by destruct (str_len_max _).
      * destruct (_ && _); [done|]. by destruct dtype.
Qed.

(** The loop stops at the first column on which line 108 or line 112 raises.
    It fails at line 112 exactly when [varchar_max] is not [True] and some
    text column has no non-missing value, no column before it being refused
    by [.str]. *)
Lemma infer_types_Raise vm df :
  infer_types vm df = Raise LengthIsNaN ↔
  is_True vm = false
  ∧ ∃ pre c post, df = pre ++ c :: post
      ∧ Forall (λ c', ¬ str_refused c') pre ∧ all_missing_text c.
Proof.
  induction df as [|c r IH]; simpl.
  - split; [done|]. intros (_&pre&c&post&H&_). by destruct pre.
  - rewrite bind_Raise. split.
    + intros [H|(t&Ht&[H|(ts&_&?)]%bind_Raise)]; [| |done].
      * apply infer_column_LengthIsNaN in H as [? ?]. split; [done|].
        by exists [], c, r.
      * apply IH in H as (?&pre&c'&post&->&Hpre&Hc'). split; [done|].
        exists (c :: pre), c', post. split; [done|]. split; [|done].
        constructor; [|done]. rewrite <- (infer_column_StrAccessor vm). congruence.
    + intros (Hvm&[|c0 pre]&c'&post&Heq&Hpre&Hc'); injection Heq as -> ->.
      * left. by apply infer_column_LengthIsNaN.
      * apply Forall_cons in Hpre as [Hc Hpre].
        destruct (infer_column_cases vm (col_data c0)) as [[t Ht]|[Ht|Ht]].
        -- right. exists t. split; [done|]. apply bind_Raise. left. apply IH.
           split; [done|]. by exists pre, c', post.
        -- by left.
        -- by apply infer_column_StrAccessor in Ht.
Qed.

(** With no refused column, any text column without a value will do. *)
Lemma infer_types_Raise_any vm df :
  is_True vm = false → Forall (λ c, ¬ str_refused c) df →
  Exists all_missing_text df → infer_types vm df = Raise LengthIsNaN.
Proof.
  intros Hvm Hall (c&(pre&post&->)%list_elem_of_split&Hc)%Exists_exists.
  apply infer_types_Raise. split; [done|]. exists pre, c, post.
  split; [done|]. split; [|done]. by apply Forall_app in Hall as [? _].
Qed.

(** ** The three passes over [sql_col_types] *)

Lemma apply_pkey_Raise names nn pkey tys e :
  apply_pkey names nn pkey tys = Raise e →
  (e = PkeyNotStr ∧ pkey ≠ PyNone ∧ ∀ p, pkey ≠ PyStr p)
  ∨ (∃ p, pkey = PyStr p ∧ e = PkeyUnknown ∧ slugify (Some p) ∉ names)
  ∨ (∃ p, pkey = PyStr p ∧ e = PrimaryKeyNull
          ∧ slugify (Some p) ∈ names ∧ slugify (Some p) ∉ nn)
  ∨ e = IndexOutOfRange.
Proof.
  intros H. destruct pkey as [|b|z|p]; unfold apply_pkey in H; try done.
  - left. by injection H as <-.
  - left. by injection H as <-.
  - right. case_bool_decide as Hin.
    + right. case_bool_decide as Hnn.
      * right.
        destruct (index_elem_of _ _ Hin) as [i Hi].
        apply bind_Raise in H as [H|(i'&_&H)]; [congruence|].
        by apply bind_Raise in H as [[? _]%getitem_Raise|(t&_&[? _]%setitem_Raise)].
      * injection H as <-. eauto 10.
    + left. injection H as <-. eauto 10.
Qed.

Lemma apply_pkey_Ok names nn pkey tys tys' :
  apply_pkey names nn pkey tys = Ok tys' →
  (pkey = PyNone ∧ tys' = tys)
  ∨ (∃ p i t, pkey = PyStr p ∧ slugify (Some p) ∈ nn
       ∧ first_at names (slugify (Some p)) i ∧ tys !! i = Some t
       ∧ tys' = <[i := t +:+ " PRIMARY KEY"]> tys).
Proof.
  destruct pkey as [|b|z|p]; unfold apply_pkey; try done.
  - intros [= <-]. by left.
  - intros H. right. case_bool_decide; [|done]. case_bool_decide; [|done].
    apply bind_Ok in H as (i&Hi%index_Ok&(t&Ht%getitem_Ok&[_ ->]%setitem_Ok)%bind_Ok).
    eauto 10.
Qed.

Lemma mark_not_null_Ok names tys n tys' :
  mark_not_null names tys n = Ok tys' →
  ∃ i t, first_at names (slugify n) i ∧ tys !! i = Some t
         ∧ tys' = <[i := t +:+ " NOT NULL"]> tys.
Proof.
  unfold mark_not_null.
  intros (i&Hi%index_Ok&(t&Ht%getitem_Ok&[_ ->]%setitem_Ok)%bind_Ok)%bind_Ok.
  eauto.
Qed.

Lemma overwrite_one_Ok names tys c ty tys' :
  overwrite_one names tys (c, ty) = Ok tys' →
  ∃ i, first_at names (slugify (Some c)) i ∧ i < length tys ∧ tys' = <[i := ty]> tys.
Proof.
  unfold overwrite_one. case_bool_decide; [|done].
  intros (i&Hi%index_Ok&[? ->]%setitem_Ok)%bind_Ok. eauto.
Qed.

Lemma apply_not_null_Raise names nn pkey inf tys e :
  apply_not_null names nn pkey inf tys = Raise e →
  e = NotInList ∨ e = IndexOutOfRange ∨ e = NoStripAttribute.
Proof.
  unfold apply_not_null. destruct (eq_True inf); [|done].
  intros [H|(nn'&_&H)]%bind_Raise.
  - destruct pkey as [|[]|z|p]; simpl in H; try done.
    + injection H as <-. auto.
    + by apply remove_Raise in H as [-> _]; auto.
    + destruct z; simpl in H.
      * by apply remove_Raise in H as [-> _]; auto.
      * injection H as <-. auto.
      * injection H as <-. auto.
    + by apply remove_Raise in H as [-> _]; auto.
  - apply for_each_Raise in H as (s&n&_&H). unfold mark_not_null in H.
    apply bind_Raise in H as [H|(i&_&[H|(t&_&H)]%bind_Raise)].
    + unfold index in H. destruct (list_find _ _) as [[]|]; [done|].
      injection H as <-. auto.
    + apply getitem_Raise in H as [-> _]. auto.
    + apply setitem_Raise in H as [-> _]. auto.
Qed.

Lemma apply_overwrite_Raise names ow tys e :
  apply_overwrite names ow tys = Raise e →
  e = OverwriteUnknown ∨ e = IndexOutOfRange.
Proof.
  destruct ow as [items|]; simpl; [|done].
  intros (s&[c ty]&_&H)%for_each_Raise. unfold overwrite_one in H.
  case_bool_decide as Hin; [|injection H as <-; auto].
  destruct (index_elem_of _ _ Hin) as [i Hi]. rewrite Hi in H. simpl in H.
  apply setitem_Raise in H as [-> _]. auto.
Qed.

(** ** Rendering *)

(** Induction over a string two characters at a time, as [py_format] reads
    it. *)
Lemma string_pair_ind (P : string → Prop) :
  P EmptyString →
  (∀ c, P (String c EmptyString)) →
  (∀ c d t, P t → P (String d t) → P (String c (String d t))) →
  ∀ t, P t.
Proof.
  intros H0 H1 H2 t.
  assert (H : P t ∧ ∀ c, P (String c t)); [|by destruct H].
  induction t as [|d t [IH1 IH2]]; [by split|].
  split; [apply IH2|]. intros c. by apply H2.
Qed.

Lemma py_format_Raise template args e :
  py_format template args = Raise e →
  e = FormatSingleBrace ∨ e = FormatIndexOutOfRange.
Proof.
  revert args. induction template as [|c|c d t IHt IHd] using string_pair_ind;
    intros args; simpl.
  - done.
  - destruct (Ascii.eqb c "{"); [intros [= <-]; auto|].
    destruct (Ascii.eqb c "}"); [intros [= <-]; auto|done].
  - destruct (Ascii.eqb c "{").
    + destruct (Ascii.eqb d "{").
      { intros [H|(?&_&?)]%bind_Raise; [eauto|done]. }
      destruct (Ascii.eqb d "}"); [|done].
      destruct args as [|a args]; [intros [= <-]; auto|].
      intros [H|(?&_&?)]%bind_Raise; [eauto|done].
    + destruct (Ascii.eqb c "}").
      * destruct (Ascii.eqb d "}"); [|intros [= <-]; auto].
        intros [H|(?&_&?)]%bind_Raise; [eauto|done].
      * intros [H|(?&_&?)]%bind_Raise; [|done]. by apply (IHd args).
Qed.

Lemma render_rest_Raise i names tys statement e :
  render_rest i names tys statement = Raise e → render_exn e.
Proof.
  unfold render_exn.
  revert i statement. induction names as [|n names IH]; intros i statement; simpl; [done|].
  intros [[-> _]%getitem_Raise|(t&_&[H|(s&_&H)]%bind_Raise)]%bind_Raise; [auto| |eauto].
  apply py_format_Raise in H. naive_solver.
Qed.

Lemma render_Raise table_name names tys e :
  render table_name names tys = Raise e → render_exn e.
Proof.
  unfold render.
  intros [[-> _]%getitem_Raise|(n0&_&H)]%bind_Raise; [by left|].
  apply bind_Raise in H as [[-> _]%getitem_Raise|(t0&_&H)]; [by left|].
  apply bind_Raise in H as [H|(s&_&H)].
  - assert (∃ t a, py_format t a = Raise e) as (t&a&Ht).
    { destruct table_name as [[|c name]|]; eauto. }
    apply py_format_Raise in Ht. unfold render_exn. naive_solver.
  - apply bind_Raise in H as [H|(?&_&?)]; [|done].
    by eapply render_rest_Raise.
Qed.

(** *** Statements without braces *)

Lemma append_nil_r (s : string) : s +:+ EmptyString = s.
Proof. induction s as [|c s IH]; [done|]. exact (f_equal (String c) IH). Qed.

Lemma append_assoc (s t u : string) : (s +:+ t) +:+ u = s +:+ t +:+ u.
Proof. induction s as [|c s IH]; [done|]. exact (f_equal (String c) IH). Qed.

Lemma brace_free_app s t :
  brace_free (s +:+ t) = brace_free s && brace_free t.
Proof.
  induction s as [|c s IH]; [done|].
  change (brace_free (String c (s +:+ t)) = brace_free (String c s) && brace_free t).
  simpl. rewrite IH. by rewrite !andb_assoc.
Qed.

(** [str.format] copies a prefix without braces. *)
Lemma py_format_prefix t u args :
  brace_free t = true →
  py_format (t +:+ u) args = py_format u args ≫= λ s, Ok (t +:+ s).
Proof.
  induction t as [|c t IH].
  - intros _. change (EmptyString +:+ u) with u. by destruct (py_format u args).
  - simpl.
    intros [[Ho%negb_true_iff Hc%negb_true_iff]%andb_true_iff Ht]%andb_true_iff.
    change (String c t +:+ u) with (String c (t +:+ u)).
    simpl. rewrite Ho, Hc, (IH Ht). by destruct (py_format u args).
Qed.

(** Evaluates the constant template of a call to [py_format]. *)
Ltac closed_template :=
  match goal with
  | |- context [py_format ?t _] =>
      let t' := eval vm_compute in t in change t with t'
  end.

(** One turn of the loop of lines 171-172. *)
Lemma py_format_line statement n t :
  brace_free statement = true →
  py_format (statement +:+ newline +:+ ", {} {}") [n; t]
  = Ok (statement +:+ newline +:+ ", " +:+ n +:+ " " +:+ t).
Proof.
  intros H. rewrite (py_format_prefix statement) by done.
  assert (Hline : py_format (newline +:+ ", {} {}") [n; t]
                  = Ok (newline +:+ ", " +:+ n +:+ " " +:+ t)).
  { closed_template. cbv -[String.append]. by rewrite (append_nil_r t). }
  by rewrite Hline.
Qed.

Lemma is_kept_no_brace c :
  is_kept c = true → Ascii.eqb c "{" = false ∧ Ascii.eqb c "}" = false.
Proof. each_char c; by split. Qed.

Lemma brace_free_string_of_list l :
  Forall (λ c, is_stable c = true) l → brace_free (string_of_list_ascii l) = true.
Proof.
  induction 1 as [|c r Hc _ IH]; simpl; [done|].
  apply is_stable_inv in Hc as (_&_&Hk&_).
  destruct (is_kept_no_brace c Hk) as [-> ->]. by rewrite IH.
Qed.

(** A sanitized name has no brace. *)
Lemma brace_free_slugify s : brace_free (str (slugify s)) = true.
Proof.
  destruct s as [[|c s]|]; try reflexivity.
  rewrite slugify_Some_cons. simpl str. apply brace_free_string_of_list, slug_chars_stable.
Qed.

Lemma render_rest_brace_free names : ∀ i tys statement,
  brace_free statement = true →
  Forall (λ n, brace_free (str n) = true) names →
  Forall (λ t, brace_free t = true) (drop i tys) →
  length names ≤ length (drop i tys) →
  render_rest i names tys statement
  = Ok (statement +:+ column_lines names (drop i tys)).
Proof.
  induction names as [|n names IH]; intros i tys statement Hs Hn Ht Hlen; simpl.
  - by rewrite append_nil_r.
  - destruct (drop i tys) as [|t rest] eqn:Hdrop; [simpl in Hlen; lia|].
    assert (Hi : tys !! i = Some t).
    { rewrite <- (Nat.add_0_r i), <- lookup_drop. by rewrite Hdrop. }
    assert (Hrest : drop (S i) tys = rest).
    { rewrite <- Nat.add_1_r, <- drop_drop. by rewrite Hdrop. }
    apply Forall_cons in Hn as [Hn Hns]. apply Forall_cons in Ht as [Ht Hts].
    rewrite (proj2 (getitem_Ok tys i t) Hi). simpl.
    rewrite py_format_line by done. simpl.
    rewrite IH.
    + rewrite Hrest. f_equal. by rewrite !append_assoc.
    + rewrite !brace_free_app, Hs, Hn, Ht. reflexivity.
    + done.
    + by rewrite Hrest.
    + rewrite Hrest. simpl in Hlen. lia.
Qed.

(** What the rendering returns when neither the table name nor a name or a
    type string has a brace. *)
Lemma render_brace_free table_name n0 t0 names tys :
  brace_free (shown_table_name table_name) = true →
  Forall (λ n, brace_free (str n) = true) (n0 :: names) →
  Forall (λ t, brace_free t = true) (t0 :: tys) →
  length names ≤ length tys →
  render table_name (n0 :: names) (t0 :: tys)
  = Ok (statement_text table_name n0 t0 names tys).
Proof.
  intros Htn [Hn0 Hn]%Forall_cons [Ht0 Ht]%Forall_cons Hlen.
  set (first := "CREATE TABLE " +:+ shown_table_name table_name +:+ " ( " +:+ newline
                +:+ str n0 +:+ " " +:+ t0).
  assert (Hfirst :
    match table_name with
    | None | Some EmptyString =>
        py_format ("CREATE TABLE no_name ( " +:+ newline +:+ "{} {}") [str n0; t0]
    | Some name =>
        py_format ("CREATE TABLE {} ( " +:+ newline +:+ "{} {}") [name; str n0; t0]
    end = Ok first).
  { destruct table_name as [[|c name]|]; closed_template; cbv -[String.append];
      by rewrite (append_nil_r t0). }
  assert (Hbf : brace_free first = true).
  { unfold first. by rewrite !brace_free_app, Htn, Hn0, Ht0. }
  unfold render.
  apply bind_Ok. exists n0. split; [done|].
  apply bind_Ok. exists t0. split; [done|].
  apply bind_Ok. exists first. split; [done|].
  apply bind_Ok. exists (first +:+ column_lines names tys). split.
  - rewrite (render_rest_brace_free names 1 (t0 :: tys)); simpl; by rewrite ?drop_0.
  - unfold statement_text, first. f_equal. by rewrite !append_assoc.
Qed.

(** ** The stages of a call *)

(** An exception raised before the rendering is the exception of the call. *)
Lemma create_table_sql_script_Raise df tn pkey vm inf ow e :
  ¬ render_exn e →
  create_table_sql_script df tn pkey vm inf ow = Raise e
  ↔ sql_columns df pkey vm inf ow = Raise e.
Proof.
  intros He. unfold create_table_sql_script. rewrite bind_Raise. split; [|auto].
  intros [?|(cols&_&H%render_Raise)]; done.
Qed.

Lemma sql_col_names_length df : length (sql_col_names df) = length df.
Proof. unfold sql_col_names. apply length_fmap. Qed.

Lemma sql_columns_checked df pkey vm inf ow :
  checks_pass df inf →
  sql_columns df pkey vm inf ow =
    (types ← infer_types vm df;
     types ← apply_pkey (sql_col_names df) (not_null_columns df) pkey types;
     types ← apply_not_null (sql_col_names df) (not_null_columns df) pkey inf types;
     types ← apply_overwrite (sql_col_names df) ow types;
     Ok (sql_col_names df, types)).
Proof.
  intros [Hnd Hinf]. unfold sql_columns.
  rewrite bool_decide_eq_false_2; [|by rewrite has_duplicates; intros []].
  by rewrite Hinf.
Qed.

(** Where a raising call stopped. *)
Lemma sql_columns_Raise df pkey vm inf ow e :
  sql_columns df pkey vm inf ow = Raise e →
  (e = DuplicateColumns ∧ ¬ NoDup (columns df))
  ∨ (e = InferNullsNotBool ∧ NoDup (columns df) ∧ in_True_False inf = false)
  ∨ ((e = LengthIsNaN ∨ e = StrAccessor)
     ∧ checks_pass df inf ∧ infer_types vm df = Raise e)
  ∨ (checks_pass df inf ∧ ∃ tys,
       infer_types vm df = Ok tys ∧
       (apply_pkey (sql_col_names df) (not_null_columns df) pkey tys = Raise e
        ∨ e = NotInList ∨ e = IndexOutOfRange ∨ e = NoStripAttribute
        ∨ e = OverwriteUnknown)).
Proof.
  unfold sql_columns. case_bool_decide as Hd; rewrite has_duplicates in Hd.
  { intros [= <-]. auto. }
  apply dec_stable in Hd.
  destruct (in_True_False inf) eqn:Hinf; simpl.
  2: { intros [= <-]. auto. }
  intros H. right. right.
  apply bind_Raise in H as [H|(tys0&Hty&H)].
  { left. split; [|done].
    destruct (infer_types_cases vm df) as [[? ?]|[?|?]]; [congruence|left|right];
      congruence. }
  right. split; [done|]. exists tys0. split; [done|].
  apply bind_Raise in H as [H|(tys1&_&H)]; [by left|]. right.
  apply bind_Raise in H as [H|(tys2&_&H)].
  { apply apply_not_null_Raise in H. naive_solver. }
  apply bind_Raise in H as [H|(tys3&_&H)]; [|done].
  apply apply_overwrite_Raise in H. naive_solver.
Qed.

Lemma sql_columns_DuplicateColumns df pkey vm inf ow :
  sql_columns df pkey vm inf ow = Raise DuplicateColumns ↔ ¬ NoDup (columns df).
Proof.
  split.
  - intros H. apply sql_columns_Raise in H as [[_ ?]|[[? _]|[[[?|?] _]|(_&tys&_&H)]]];
      try done.
    destruct H as [H%apply_pkey_Raise|H]; naive_solver.
  - intros H. unfold sql_columns.
    by rewrite bool_decide_eq_true_2 by by apply has_duplicates.
Qed.

Lemma sql_columns_InferNullsNotBool df pkey vm inf ow :
  sql_columns df pkey vm inf ow = Raise InferNullsNotBool
  ↔ NoDup (columns df) ∧ in_True_False inf = false.
Proof.
  split.
  - intros H. apply sql_columns_Raise in H as [[? _]|[[_ ?]|[[[?|?] _]|(_&tys&_&H)]]];
      try done.
    destruct H as [H%apply_pkey_Raise|H]; naive_solver.
  - intros [Hnd Hinf]. unfold sql_columns.
    rewrite bool_decide_eq_false_2; [|by rewrite has_duplicates; intros []].
    by rewrite Hinf.
Qed.

Lemma sql_columns_PkeyNotStr df pkey vm inf ow :
  sql_columns df pkey vm inf ow = Raise PkeyNotStr
  ↔ checks_pass df inf ∧ (∃ tys, infer_types vm df = Ok tys)
    ∧ pkey ≠ PyNone ∧ ∀ p, pkey ≠ PyStr p.
Proof.
  split.
  - intros H. apply sql_columns_Raise in H as [[? _]|[[? _]|[[[?|?] _]|(?&tys&?&H)]]];
      try done.
    destruct H as [H%apply_pkey_Raise|H]; naive_solver.
  - intros (Hc&[tys Hty]&Hn&Hs). rewrite sql_columns_checked by done.
    rewrite Hty. simpl. destruct pkey; try done. by destruct (Hs s).
Qed.

Lemma sql_columns_PrimaryKeyNull df pkey vm inf ow :
  sql_columns df pkey vm inf ow = Raise PrimaryKeyNull
  ↔ checks_pass df inf ∧ (∃ tys, infer_types vm df = Ok tys)
    ∧ ∃ p, pkey = PyStr p ∧ slugify (Some p) ∈ sql_col_names df
           ∧ slugify (Some p) ∉ not_null_columns df.
Proof.
  split.
  - intros H. apply sql_columns_Raise in H as [[? _]|[[? _]|[[[?|?] _]|(?&tys&?&H)]]];
      try done.
    destruct H as [H%apply_pkey_Raise|H]; naive_solver.
  - intros (Hc&[tys Hty]&p&->&Hin&Hnn). rewrite sql_columns_checked by done.
    rewrite Hty. simpl. unfold apply_pkey.
    by rewrite bool_decide_eq_true_2, bool_decide_eq_false_2 by done.
Qed.

(** ** The passes when sanitized names are pairwise distinct *)

Lemma NoDup_fmap_filter {A B} (f : A → B) (g : A → bool) l :
  NoDup (f <$> l) → NoDup (f <$> List.filter g l).
Proof.
  induction l as [|a r IH]; simpl; [done|].
  intros [Ha Hr]%NoDup_cons. destruct (g a); simpl; [|auto].
  apply NoDup_cons. split; [|auto]. intros Hin. apply Ha.
  apply list_elem_of_fmap in Hin as (x&->&Hx).
  apply list_elem_of_In, filter_In in Hx as [Hx _].
  apply list_elem_of_fmap_2. by apply list_elem_of_In.
Qed.

Lemma elem_of_not_null_columns df n :
  n ∈ not_null_columns df ↔ ∃ c, c ∈ df ∧ notnull_all (col_data c) = true ∧ n = slug c.
Proof.
  unfold not_null_columns. rewrite list_elem_of_fmap. split.
  - intros (c&->&[? ?]%list_elem_of_In%filter_In). exists c.
    split; [by apply list_elem_of_In|done].
  - intros (c&Hc&?&->). exists c. split; [done|].
    apply list_elem_of_In, filter_In. split; [by apply list_elem_of_In|done].
Qed.

Lemma not_null_columns_sub df n : n ∈ not_null_columns df → n ∈ sql_col_names df.
Proof.
  intros (c&Hc&_&->)%elem_of_not_null_columns. by apply list_elem_of_fmap_2.
Qed.

(** With distinct sanitized names, a name is in [not_null_columns] exactly
    when its own column has no missing value. *)
Lemma elem_of_not_null_columns_NoDup df i c :
  NoDup (sql_col_names df) → df !! i = Some c →
  slug c ∈ not_null_columns df ↔ notnull_all (col_data c) = true.
Proof.
  intros Hnd Hi. rewrite elem_of_not_null_columns. split; [|by eauto using list_elem_of_lookup_2].
  intros (c'&[j Hj]%list_elem_of_lookup&Hnn&Heq).
  assert (i = j) as Hij.
  { eapply (NoDup_lookup _ _ _ (slug c) Hnd); unfold sql_col_names;
      rewrite list_lookup_fmap; [by rewrite Hi|rewrite Hj; simpl; by rewrite Heq]. }
  subst j. rewrite Hi in Hj. by injection Hj as <-.
Qed.

Section distinct_names.
Variable names : list (option string).
Hypothesis names_NoDup : NoDup names.

Lemma for_each_mark_not_null l tys :
  length tys = length names → NoDup l →
  (∀ n, n ∈ l → n ∈ names ∧ slugify n = n) →
  ∃ tys', for_each (mark_not_null names) l tys = Ok tys'
    ∧ length tys' = length tys
    ∧ ∀ i n t, names !! i = Some n → tys !! i = Some t →
        tys' !! i = Some (if bool_decide (n ∈ l) then t +:+ " NOT NULL" else t).
Proof.
  intros Hlen Hl. revert tys Hlen.
  induction Hl as [|a r Ha Hr IH]; intros tys Hlen Hin; simpl.
  - exists tys. split_and!; [done..|]. by intros i n t _ ->.
  - destruct (Hin a) as [[ia Hia]%list_elem_of_lookup Hfix]; [left|].
    assert (Hlt : ia < length tys) by (rewrite Hlen; by eapply lookup_lt_Some).
    destruct (lookup_lt_is_Some_2 tys ia Hlt) as [ta Hta].
    assert (Hmark : mark_not_null names tys a = Ok (<[ia := ta +:+ " NOT NULL"]> tys)).
    { unfold mark_not_null. rewrite Hfix.
      apply bind_Ok. exists ia. split; [by apply index_NoDup|].
      apply bind_Ok. exists ta. split; [by apply getitem_Ok|]. by apply setitem_Ok. }
    rewrite Hmark. simpl.
    destruct (IH (<[ia := ta +:+ " NOT NULL"]> tys)) as (tys'&Hrun&Hlen'&Hget).
    { by rewrite length_insert. }
    { intros n Hn. apply Hin. by right. }
    exists tys'. split_and!; [done|by rewrite Hlen', length_insert|].
    intros i n t Hn Ht. destruct (decide (i = ia)) as [->|Hne].
    + assert (n = a) as -> by congruence. assert (t = ta) as -> by congruence.
      rewrite (Hget ia a (ta +:+ " NOT NULL")); [|done|by apply list_lookup_insert_eq].
      rewrite (bool_decide_eq_false_2 (a ∈ r)) by done.
      by rewrite (bool_decide_eq_true_2 (a ∈ a :: r)) by left.
    + rewrite (Hget i n t); [|done|by rewrite list_lookup_insert_ne].
      assert (n ≠ a).
      { intros ->. apply Hne. by apply (NoDup_lookup names i ia a). }
      f_equal. rewrite (bool_decide_ext (n ∈ a :: r) (n ∈ r)); [done|].
      rewrite elem_of_cons. naive_solver.
Qed.
End distinct_names.

Lemma overwrite_one_known names tys c ty i :
  first_at names (slugify (Some c)) i → i < length tys →
  overwrite_one names tys (c, ty) = Ok (<[i := ty]> tys).
Proof.
  intros Hi Hlt. unfold overwrite_one.
  rewrite bool_decide_eq_true_2
    by (destruct Hi as [? _]; by eapply list_elem_of_lookup_2).
  apply bind_Ok. exists i. split; [by apply index_Ok|]. by apply setitem_Ok.
Qed.

Lemma overwrite_one_unknown names tys c ty :
  slugify (Some c) ∉ names → overwrite_one names tys (c, ty) = Raise OverwriteUnknown.
Proof. intros Hc. unfold overwrite_one. by rewrite bool_decide_eq_false_2. Qed.

(** The override loop succeeds when every key names a column, and then a
    first-bearing position holds the last override addressed to its name. *)
Lemma for_each_overwrite_one names items tys :
  length tys = length names →
  Forall (λ item, slugify (Some item.1) ∈ names) items →
  ∃ tys', for_each (overwrite_one names) items tys = Ok tys'
    ∧ length tys' = length tys
    ∧ ∀ i n, first_at names n i →
        tys' !! i = match override_for n items with
                    | Some ty => Some ty
                    | None => tys !! i
                    end.
Proof.
  intros Hlen Hall. revert tys Hlen.
  induction Hall as [|[c ty] rest Hc _ IH]; intros tys Hlen; simpl in *.
  - exists tys. by split_and!.
  - destruct (index_elem_of _ _ Hc) as [ic Hic].
    pose proof (proj1 (index_Ok _ _ _) Hic) as Hfirst.
    assert (Hlt : ic < length tys).
    { rewrite Hlen. destruct Hfirst as [? _]. by eapply lookup_lt_Some. }
    rewrite (overwrite_one_known names tys c ty ic) by done. simpl.
    destruct (IH (<[ic := ty]> tys)) as (tys'&Hrun&Hlen'&Hget).
    { by rewrite length_insert. }
    exists tys'. split_and!; [done|by rewrite Hlen', length_insert|].
    intros i n Hn. rewrite (Hget i n Hn).
    destruct (override_for n rest); [done|].
    case_bool_decide as Hk.
    + subst n. assert (i = ic) as ->.
      { apply index_Ok in Hn. congruence. }
      by apply list_lookup_insert_eq.
    + apply list_lookup_insert_ne. intros ->.
      destruct Hfirst as [? _], Hn as [? _]. congruence.
Qed.

(** The override loop stops at the first key that names no column. *)
Lemma for_each_overwrite_unknown names items tys :
  length tys = length names →
  Exists (λ item, slugify (Some item.1) ∉ names) items →
  for_each (overwrite_one names) items tys = Raise OverwriteUnknown.
Proof.
  intros Hlen Hex. revert tys Hlen.
  induction items as [|[c ty] rest IH]; intros tys Hlen.
  { by apply Exists_nil in Hex. }
  simpl. destruct (decide (slugify (Some c) ∈ names)) as [Hc|Hc].
  - apply Exists_cons in Hex as [?|Hex]; [done|].
    destruct (index_elem_of _ _ Hc) as [ic Hic%index_Ok].
    assert (Hlt : ic < length tys).
    { rewrite Hlen. destruct Hic as [? _]. by eapply lookup_lt_Some. }
    rewrite (overwrite_one_known names tys c ty ic) by done. simpl.
    apply IH; [done|]. by rewrite length_insert.
  - by rewrite overwrite_one_unknown.
Qed.

Section stages.
Variable names : list (option string).
Hypothesis names_NoDup : NoDup names.

Lemma pkey_stage nn pkey tys :
  length tys = length names →
  (∀ n, n ∈ nn → n ∈ names) →
  pkey = PyNone ∨ (∃ p, pkey = PyStr p ∧ slugify (Some p) ∈ nn) →
  ∃ tys', apply_pkey names nn pkey tys = Ok tys'
    ∧ length tys' = length tys
    ∧ ∀ i n t, names !! i = Some n → tys !! i = Some t →
        tys' !! i = Some (if is_pkey pkey n then t +:+ " PRIMARY KEY" else t).
Proof.
  intros Hlen Hsub [->|(p&->&Hp)].
  - exists tys. by split_and!.
  - destruct (proj1 (list_elem_of_lookup _ _) (Hsub _ Hp)) as [ip Hip].
    assert (Hlt : ip < length tys) by (rewrite Hlen; by eapply lookup_lt_Some).
    destruct (lookup_lt_is_Some_2 tys ip Hlt) as [tp Htp].
    exists (<[ip := tp +:+ " PRIMARY KEY"]> tys). split_and!.
    + unfold apply_pkey. rewrite !bool_decide_eq_true_2 by auto.
      apply bind_Ok. exists ip. split; [by apply index_NoDup|].
      apply bind_Ok. exists tp. split; [by apply getitem_Ok|]. by apply setitem_Ok.
    + apply length_insert.
    + intros i n t Hn Ht. simpl. case_bool_decide as Hk.
      * subst n. assert (i = ip) as -> by by apply (NoDup_lookup names _ _ _ names_NoDup Hn).
        rewrite list_lookup_insert_eq by done. congruence.
      * rewrite list_lookup_insert_ne; [done|]. intros ->. congruence.
Qed.

Lemma not_null_stage nn pkey inf tys :
  length tys = length names → NoDup nn →
  (∀ n, n ∈ nn → n ∈ names) →
  (eq_True inf = true → ∀ n, n ∈ nn → slugify n = n) →
  pkey = PyNone ∨ (∃ p, pkey = PyStr p ∧ slugify (Some p) ∈ nn) →
  ∃ tys', apply_not_null names nn pkey inf tys = Ok tys'
    ∧ length tys' = length tys
    ∧ ∀ i n t, names !! i = Some n → tys !! i = Some t →
        tys' !! i = Some (if eq_True inf && bool_decide (n ∈ nn) && negb (is_pkey pkey n)
                          then t +:+ " NOT NULL" else t).
Proof.
  intros Hlen Hnn Hsub Hfix Hpkey. unfold apply_not_null.
  destruct (eq_True inf); simpl; [|exists tys; by split_and!].
  specialize (Hfix eq_refl).
  assert (∃ nn', match pkey with
                 | PyNone => Ok nn
                 | _ => slugify_py pkey ≫= λ k, remove k nn
                 end = Ok nn'
               ∧ NoDup nn'
               ∧ ∀ n, n ∈ nn' ↔ n ∈ nn ∧ is_pkey pkey n = false) as (nn'&->&Hnd'&Hiff).
  { destruct Hpkey as [->|(p&->&Hp)].
    - exists nn. split_and!; [done..|]. naive_solver.
    - destruct (remove_elem_of nn _ Hp) as [nn' Hrem]. exists nn'. simpl.
      destruct (remove_Ok_NoDup _ _ _ Hnn Hrem) as [? Hiff].
      split_and!; [done..|]. intros n. rewrite Hiff, bool_decide_eq_false.
      naive_solver. }
  simpl.
  destruct (for_each_mark_not_null names names_NoDup nn' tys)
    as (tys'&Hrun&Hlen'&Hget); [done..| |].
  { intros n [Hn _]%Hiff. auto. }
  exists tys'. split_and!; [done..|]. intros i n t Hn Ht.
  rewrite (Hget i n t Hn Ht). f_equal.
  destruct (is_pkey pkey n) eqn:Hk; simpl.
  - rewrite andb_false_r.
    rewrite (bool_decide_eq_false_2 (n ∈ nn')); [done|].
    rewrite Hiff. intros [_ ?]. congruence.
  - rewrite andb_true_r.
    rewrite (bool_decide_ext (n ∈ nn') (n ∈ nn)); [done|].
    rewrite Hiff. split; [by intros [? _]|done].
Qed.

Lemma overwrite_stage ow tys :
  length tys = length names →
  (∀ items, ow = Some items → Forall (λ item, slugify (Some item.1) ∈ names) items) →
  ∃ tys', apply_overwrite names ow tys = Ok tys'
    ∧ length tys' = length tys
    ∧ ∀ i n t, names !! i = Some n → tys !! i = Some t →
        tys' !! i = Some (default t (ow ≫= override_for n)).
Proof.
  intros Hlen Hkeys. destruct ow as [items|]; simpl.
  - destruct (for_each_overwrite_one names items tys Hlen (Hkeys _ eq_refl))
      as (tys'&Hrun&Hlen'&Hget).
    exists tys'. split_and!; [done..|]. intros i n t Hn Ht.
    rewrite (Hget i n).
    + destruct (override_for n items); [done|]. by rewrite Ht.
    + split; [done|]. intros j Hj Hn'.
      pose proof (NoDup_lookup names _ _ _ names_NoDup Hn Hn'). lia.
  - exists tys. by split_and!.
Qed.
End stages.

Lemma sql_col_names_columns df :
  sql_col_names df = (λ s, slugify (Some s)) <$> columns df.
Proof. unfold sql_col_names, columns. by rewrite <- list_fmap_compose. Qed.

Lemma NoDup_columns df : NoDup (sql_col_names df) → NoDup (columns df).
Proof. rewrite sql_col_names_columns. apply NoDup_fmap_1. Qed.

Lemma sql_col_names_lookup df i c :
  df !! i = Some c → sql_col_names df !! i = Some (slug c).
Proof. intros H. unfold sql_col_names. by rewrite list_lookup_fmap, H. Qed.


(** What a call returns when sanitized names are pairwise distinct, every
    dtype is supported and every check passes. *)
Lemma sql_columns_Ok df pkey vm inf ow tys0 :
  NoDup (sql_col_names df) →
  in_True_False inf = true →
  Forall supported df →
  infer_types vm df = Ok tys0 →
  pkey_ok df pkey →
  (eq_True inf = true → ∀ n, n ∈ not_null_columns df → slugify n = n) →
  (∀ items, ow = Some items →
     Forall (λ item, slugify (Some item.1) ∈ sql_col_names df) items) →
  ∃ tys, sql_columns df pkey vm inf ow = Ok (sql_col_names df, tys)
    ∧ length tys = length df
    ∧ ∀ i c t, df !! i = Some c → tys0 !! i = Some t →
        tys !! i = Some (default (constrained pkey inf c t)
                                 (ow ≫= override_for (slug c))).
Proof.
  intros Hnd Hinf Hsup Hty Hpkey Hne Hkeys.
  pose proof (Forall2_length _ _ _ (infer_types_Forall2 _ _ _ Hsup Hty)) as Hlen0.
  rewrite <- (sql_col_names_length df) in Hlen0. symmetry in Hlen0.
  rewrite sql_columns_checked by (split; [by apply NoDup_columns|done]).
  rewrite Hty. simpl.
  destruct (pkey_stage _ Hnd (not_null_columns df) pkey tys0)
    as (tys1&->&Hlen1&Hget1); [done|apply not_null_columns_sub|done|].
  simpl.
  destruct (not_null_stage _ Hnd (not_null_columns df) pkey inf tys1)
    as (tys2&->&Hlen2&Hget2).
  { congruence. }
  { unfold not_null_columns. by apply NoDup_fmap_filter. }
  { apply not_null_columns_sub. }
  { done. }
  { done. }
  simpl.
  destruct (overwrite_stage _ Hnd ow tys2) as (tys3&->&Hlen3&Hget3);
    [congruence|done|].
  simpl. exists tys3. split_and!; [done|rewrite <- (sql_col_names_length df); congruence|].
  intros i c t Hc Ht. pose proof (sql_col_names_lookup _ _ _ Hc) as Hn.
  rewrite (Hget3 i (slug c) (constrained pkey inf c t)); [done..|].
  rewrite (Hget2 i (slug c) (if is_pkey pkey (slug c) then t +:+ " PRIMARY KEY" else t));
    [|done|by apply Hget1].
  f_equal. unfold constrained.
  rewrite (bool_decide_ext _ _ (elem_of_not_null_columns_NoDup df i c Hnd Hc)).
  destruct (is_pkey pkey (slug c)); simpl; [by rewrite andb_false_r|].
  rewrite andb_true_r. destruct (notnull_all (col_data c)).
  - by rewrite bool_decide_eq_true_2.
  - by rewrite bool_decide_eq_false_2.
Qed.

(** ** Columns whose sanitized name is already taken *)

Lemma first_at_not_repeated names n i j :
  first_at names n i → repeated names j → i ≠ j.
Proof.
  intros [Hi Hmin] (i'&n'&Hlt&Hi'&Hj) <-.
  assert (n' = n) as -> by congruence. by apply (Hmin i').
Qed.

Lemma for_each_untouched {A} (body : list string → A → result (list string)) j l :
  (∀ s a s', body s a = Ok s' → s' !! j = s !! j) →
  ∀ s s', for_each body l s = Ok s' → s' !! j = s !! j.
Proof.
  intros Hbody. induction l as [|a r IH]; intros s s'; simpl.
  - by intros [= <-].
  - intros (s1&H1&Hr)%bind_Ok. rewrite (IH _ _ Hr). eauto.
Qed.

Section untouched.
Variables (names : list (option string)) (j : nat).
Hypothesis Hj : repeated names j.

Lemma apply_pkey_untouched nn pkey tys tys' :
  apply_pkey names nn pkey tys = Ok tys' → tys' !! j = tys !! j.
Proof.
  intros [[_ ->]|(p&i&t&_&_&Hi&_&->)]%apply_pkey_Ok; [done|].
  apply list_lookup_insert_ne. by eapply first_at_not_repeated.
Qed.

Lemma apply_not_null_untouched nn pkey inf tys tys' :
  apply_not_null names nn pkey inf tys = Ok tys' → tys' !! j = tys !! j.
Proof.
  unfold apply_not_null. destruct (eq_True inf); [|by intros [= <-]].
  intros (nn'&_&H)%bind_Ok. revert H. apply for_each_untouched.
  intros s n s' (i&t&Hi&_&->)%mark_not_null_Ok.
  apply list_lookup_insert_ne. by eapply first_at_not_repeated.
Qed.

Lemma apply_overwrite_untouched ow tys tys' :
  apply_overwrite names ow tys = Ok tys' → tys' !! j = tys !! j.
Proof.
  destruct ow as [items|]; simpl; [|by intros [= <-]].
  apply for_each_untouched.
  intros s [c ty] s' (i&Hi&_&->)%overwrite_one_Ok.
  apply list_lookup_insert_ne. by eapply first_at_not_repeated.
Qed.
End untouched.

(** ** What the first bearer of a name receives *)

Lemma first_at_inj {A} `{EqDecision A} (l : list A) x i j :
  first_at l x i → first_at l x j → i = j.
Proof. intros Hi%index_Ok Hj%index_Ok. congruence. Qed.

Lemma first_at_ne {A} (l : list A) x y i j :
  first_at l x i → first_at l y j → x ≠ y → i ≠ j.
Proof. intros [Hi _] [Hj _] Hne ->. congruence. Qed.

Lemma remove_occurrences k l l' n :
  remove k l = Ok l' →
  occurrences n l = occurrences n l' + (if bool_decide (k = n) then 1 else 0).
Proof.
  revert l'. induction l as [|y r IH]; intros l'; simpl; [done|].
  destruct (decide (k = y)) as [->|Hne].
  - intros [= ->]. case_bool_decide; lia.
  - intros (r'&Hr&[= <-])%bind_Ok. simpl. rewrite (IH _ Hr).
    repeat case_bool_decide; lia.
Qed.

Section first_bearer.
Variables (names : list (option string)) (n : option string) (i : nat).
Hypothesis Hi : first_at names n i.

Lemma apply_pkey_first nn pkey tys tys' :
  apply_pkey names nn pkey tys = Ok tys' →
  tys' !! i = (λ t, if is_pkey pkey n then t +:+ " PRIMARY KEY" else t) <$> tys !! i.
Proof.
  intros [[-> ->]|(p&ip&t&->&_&Hip&Ht&->)]%apply_pkey_Ok; simpl.
  - by destruct (tys !! i).
  - case_bool_decide as Hk.
    + subst n. rewrite (first_at_inj _ _ _ _ Hi Hip), Ht.
      apply list_lookup_insert_eq. by eapply lookup_lt_Some.
    + rewrite list_lookup_insert_ne by (symmetry; by eapply first_at_ne).
      by destruct (tys !! i).
Qed.

Lemma for_each_mark_not_null_first l tys tys' :
  (∀ m, m ∈ l → slugify m = m) →
  for_each (mark_not_null names) l tys = Ok tys' →
  tys' !! i = not_null_times (occurrences n l) <$> tys !! i.
Proof.
  revert tys. induction l as [|a r IH]; intros tys Hfix; simpl.
  - intros [= <-]. by destruct (tys !! i).
  - intros (tys1&(ia&ta&Hia&Hta&->)%mark_not_null_Ok&Hrun)%bind_Ok.
    rewrite (Hfix a) in Hia by left.
    rewrite (IH _ (λ m Hm, Hfix m (list_elem_of_further _ _ _ Hm)) Hrun).
    case_bool_decide as Hk.
    + subst a. rewrite (first_at_inj _ _ _ _ Hi Hia), Hta.
      rewrite list_lookup_insert_eq by by eapply lookup_lt_Some. done.
    + by rewrite list_lookup_insert_ne by (symmetry; by eapply first_at_ne).
Qed.

Lemma apply_not_null_first nn pkey inf tys tys' :
  pkey = PyNone ∨ (∃ p, pkey = PyStr p) →
  (eq_True inf = true → ∀ m, m ∈ nn → slugify m = m) →
  apply_not_null names nn pkey inf tys = Ok tys' →
  tys' !! i
  = not_null_times (if eq_True inf
                    then occurrences n nn - (if is_pkey pkey n then 1 else 0)
                    else 0) <$> tys !! i.
Proof.
  intros Hpkey Hfix. unfold apply_not_null.
  destruct (eq_True inf); [|intros [= <-]; by destruct (tys !! i)].
  specialize (Hfix eq_refl). intros (nn'&Hnn'&Hrun)%bind_Ok.
  destruct Hpkey as [->|[p ->]]; simpl in *.
  - injection Hnn' as <-. rewrite Nat.sub_0_r.
    by apply for_each_mark_not_null_first.
  - rewrite (remove_occurrences _ _ _ n Hnn').
    replace (occurrences n nn' + (if bool_decide (slugify (Some p) = n) then 1 else 0)
             - (if bool_decide (slugify (Some p) = n) then 1 else 0))
      with (occurrences n nn') by (case_bool_decide; lia).
    apply for_each_mark_not_null_first; [|done].
    intros m Hm. apply Hfix. by eapply remove_Ok.
Qed.

Lemma apply_overwrite_first ow tys tys' :
  apply_overwrite names ow tys = Ok tys' →
  tys' !! i = match ow ≫= override_for n with
              | Some ty => Some ty
              | None => tys !! i
              end.
Proof.
  destruct ow as [items|]; simpl; [|by intros [= <-]].
  revert tys. induction items as [|[c ty] rest IH]; intros tys; simpl.
  - by intros [= <-].
  - intros (tys1&(ic&Hic&Hlt&->)%overwrite_one_Ok&Hrun)%bind_Ok.
    rewrite (IH _ Hrun). destruct (override_for n rest); [done|].
    case_bool_decide as Hk.
    + subst n. rewrite (first_at_inj _ _ _ _ Hi Hic).
      by apply list_lookup_insert_eq.
    + apply list_lookup_insert_ne. symmetry. by eapply first_at_ne.
Qed.
End first_bearer.

Lemma sql_columns_Ok_inv df pkey vm inf ow names tys :
  sql_columns df pkey vm inf ow = Ok (names, tys) →
  checks_pass df inf ∧ names = sql_col_names df ∧
  ∃ tys0 tys1 tys2,
    infer_types vm df = Ok tys0
    ∧ apply_pkey names (not_null_columns df) pkey tys0 = Ok tys1
    ∧ apply_not_null names (not_null_columns df) pkey inf tys1 = Ok tys2
    ∧ apply_overwrite names ow tys2 = Ok tys.
Proof.
  unfold sql_columns. case_bool_decide as Hd; [done|].
  rewrite has_duplicates in Hd. apply dec_stable in Hd.
  destruct (in_True_False inf) eqn:Hinf; [|done]. simpl.
  intros (tys0&?&(tys1&?&(tys2&?&(tys3&?&[= <- <-])%bind_Ok)%bind_Ok)%bind_Ok)%bind_Ok.
  split; [done|]. split; [done|]. eauto 10.
Qed.

(** ** The returned statement *)

(** A call whose passes succeed returns the statement made of the sanitized
    names and the final type strings, provided the table name and the type
    strings have no brace for the repeated [str.format] to trip on. *)
Lemma create_table_sql_script_Ok df table_name pkey vm inf ow n0 names t0 tys :
  sql_columns df pkey vm inf ow = Ok (n0 :: names, t0 :: tys) →
  length names ≤ length tys →
  brace_free (shown_table_name table_name) = true →
  Forall (λ t, brace_free t = true) (t0 :: tys) →
  create_table_sql_script df table_name pkey vm inf ow
  = Ok (statement_text table_name n0 t0 names tys).
Proof.
  intros Hrun Hlen Htn Hty. unfold create_table_sql_script. rewrite Hrun. simpl.
  apply render_brace_free; [done| |done..].
  apply sql_columns_Ok_inv in Hrun as (_&Hnames&_).
  rewrite Hnames. unfold sql_col_names. apply Forall_fmap, Forall_forall.
  intros c _. apply brace_free_slugify.
Qed.

(** The example of the specification. *)
Example spec_example :
  create_table_sql_script
    [ Column "id" (IntSeries int64 [0; 1; 1]%Z);
      Column "Name" (TextSeries false [Some "Al"; Some "Bo"; None]) ]
    (Some "people") (PyStr "id") (PyBool false) (PyBool true) None
  = Ok ("CREATE TABLE people ( " +:+ newline +:+ "id BIT PRIMARY KEY"
        +:+ newline +:+ ", name VARCHAR(2)" +:+ newline +:+ ");").
Proof. reflexivity. Qed.

(** A brace in the table name breaks the second [str.format]. *)
Example brace_in_table_name :
  create_table_sql_script two_a_int (Some "t}") PyNone (PyBool false) (PyBool true) None
  = Raise FormatSingleBrace.
Proof. reflexivity. Qed.

(** ** Integer columns *)

Lemma foldr_min_spec v r :
  let m := foldr Z.min v r in
  m ∈ v :: r ∧ ∀ x, x ∈ v :: r → (m ≤ x)%Z.
Proof.
  induction r as [|a r [Hin Hle]]; simpl.
  - split; [left|]. intros x ->%list_elem_of_singleton. lia.
  - split.
    + destruct (Z.min_spec a (foldr Z.min v r)) as [[_ ->]|[_ ->]].
      * right. left.
      * apply elem_of_cons in Hin as [->|?]; [left|right; by right].
    + intros x [->|[->|Hx]%elem_of_cons]%elem_of_cons.
      * specialize (Hle v ltac:(left)). lia.
      * lia.
      * specialize (Hle x ltac:(by right)). lia.
Qed.

Lemma foldr_max_spec v r :
  let m := foldr Z.max v r in
  m ∈ v :: r ∧ ∀ x, x ∈ v :: r → (x ≤ m)%Z.
Proof.
  induction r as [|a r [Hin Hle]]; simpl.
  - split; [left|]. intros x ->%list_elem_of_singleton. lia.
  - split.
    + destruct (Z.max_spec a (foldr Z.max v r)) as [[_ ->]|[_ ->]].
      * apply elem_of_cons in Hin as [->|?]; [left|right; by right].
      * right. left.
    + intros x [->|[->|Hx]%elem_of_cons]%elem_of_cons.
      * specialize (Hle v ltac:(left)). lia.
      * lia.
      * specialize (Hle x ltac:(by right)). lia.
Qed.

Lemma series_min_Some values m :
  series_min values = Some m ↔ m ∈ values ∧ ∀ x, x ∈ values → (m ≤ x)%Z.
Proof.
  destruct values as [|v r]; simpl.
  - split; [done|]. by intros [?%elem_of_nil _].
  - pose proof (foldr_min_spec v r) as [Hin Hle]. split.
    + by intros [= <-].
    + intros [Hm Hmin]. f_equal. specialize (Hle m Hm). specialize (Hmin _ Hin). lia.
Qed.

Lemma series_max_Some values m :
  series_max values = Some m ↔ m ∈ values ∧ ∀ x, x ∈ values → (x ≤ m)%Z.
Proof.
  destruct values as [|v r]; simpl.
  - split; [done|]. by intros [?%elem_of_nil _].
  - pose proof (foldr_max_spec v r) as [Hin Hle]. split.
    + by intros [= <-].
    + intros [Hm Hmax]. f_equal. specialize (Hle m Hm). specialize (Hmax _ Hin). lia.
Qed.

Lemma is_bit_true values :
  is_bit values = true ↔ confined_01 values ∧ 0%Z ∈ values ∧ 1%Z ∈ values.
Proof.
  unfold is_bit. rewrite andb_true_iff, !bool_decide_eq_true.
  rewrite series_min_Some, series_max_Some. unfold confined_01. split.
  - intros [[H0 Hmin] [H1 Hmax]]. split_and!; [|done..].
    intros v Hv. specialize (Hmin v Hv). specialize (Hmax v Hv). lia.
  - intros (Hc&H0&H1). split_and!; [done| |done|].
    + intros x Hx. destruct (Hc x Hx); lia.
    + intros x Hx. destruct (Hc x Hx); lia.
Qed.

Lemma is_bit_outside values : outside_01 values → is_bit values = false.
Proof.
  intros (v&Hv&H0&H1). apply not_true_is_false.
  intros (Hc&_)%is_bit_true. destruct (Hc v Hv); done.
Qed.

Lemma infer_column_int vm dtype values :
  infer_column vm (IntSeries dtype values)
  = Ok (Some (if is_bit values then "BIT" else width_type dtype)).
Proof. simpl. fold (is_bit values). destruct (is_bit values); [done|]. by destruct dtype. Qed.

Lemma infer_types_lookup vm df tys i c :
  Forall supported df → infer_types vm df = Ok tys → df !! i = Some c →
  ∃ t, infer_column vm (col_data c) = Ok (Some t) ∧ tys !! i = Some t.
Proof.
  intros Hsup Hty Hc.
  pose proof (infer_types_Forall2 _ _ _ Hsup Hty) as H2.
  destruct (Forall2_lookup_l _ _ _ _ _ H2 Hc) as (t&?&?). eauto.
Qed.

(** C1. An integer column with a value outside {0,1} gets the type of its
    declared width label: int8, int16, uint8 give SMALLINT; int32, uint16
    give INT; int64, uint32 give BIGINT; uint64 gives NUMERIC. This holds
    for the column alone and for its entry in [sql_col_types] when every
    column has a supported dtype. *)
Theorem integer_width_types vm dtype values :
  outside_01 values →
  infer_column vm (IntSeries dtype values) = Ok (Some (width_type dtype))
  ∧ ∀ df tys i name,
      Forall supported df → infer_types vm df = Ok tys →
      df !! i = Some (Column name (IntSeries dtype values)) →
      tys !! i = Some (width_type dtype).
Proof.
  intros Hout.
  assert (Hcol : infer_column vm (IntSeries dtype values) = Ok (Some (width_type dtype))).
  { by rewrite infer_column_int, is_bit_outside. }
  split; [done|]. intros df tys i name Hsup Hty Hc.
  destruct (infer_types_lookup _ _ _ _ _ Hsup Hty Hc) as (t&Ht&->).
  simpl in Ht. simpl in Hcol. congruence.
Qed.

Lemma integer_width_types_witness :
  infer_column (PyBool false) (IntSeries uint64 [0; 7]%Z) = Ok (Some "NUMERIC").
Proof.
  refine (proj1 (integer_width_types (PyBool false) uint64 [0; 7]%Z _)).
  exists 7%Z. split; [right; left|]. split; discriminate.
Defined.

(** C2, as stated, fails: a column of zeros has all its values in {0,1} and
    is not typed BIT. *)
Lemma bit_counterexample :
  confined_01 [0; 0]%Z
  ∧ infer_column (PyBool false) (IntSeries int8 [0; 0]%Z) = Ok (Some "SMALLINT")
  ∧ infer_column (PyBool false) (IntSeries int8 [0; 0]%Z) ≠ Ok (Some "BIT").
Proof.
  split_and!; [|done..].
  intros v [->|[->|[]%elem_of_nil]%elem_of_cons]%elem_of_cons; auto.
Qed.

(** C2, amended. An integer column is typed BIT exactly when its minimum is
    0 and its maximum is 1, that is when all its values are in {0,1} and both
    0 and 1 occur, whatever the declared width; a column holding only zeros,
    only ones, or no row is typed by its width label. *)
Theorem bit_exactly_zero_and_one vm dtype values :
  (infer_column vm (IntSeries dtype values) = Ok (Some "BIT")
   ↔ confined_01 values ∧ 0%Z ∈ values ∧ 1%Z ∈ values)
  ∧ (values = [] ∨ (∀ v, v ∈ values → v = 0%Z) ∨ (∀ v, v ∈ values → v = 1%Z) →
     infer_column vm (IntSeries dtype values) = Ok (Some (width_type dtype))).
Proof.
  rewrite infer_column_int, <- is_bit_true. split.
  - destruct (is_bit values); [done|]. by destruct dtype.
  - intros Hcase. replace (is_bit values) with false; [done|].
    symmetry. apply not_true_is_false. intros (_&H0&H1)%is_bit_true.
    destruct Hcase as [->|[Hall|Hall]].
    + by apply elem_of_nil in H0.
    + by specialize (Hall _ H1).
    + by specialize (Hall _ H0).
Qed.

Lemma bit_exactly_zero_and_one_witness :
  infer_column (PyBool false) (IntSeries uint64 [0; 1; 1]%Z) = Ok (Some "BIT")
  ∧ infer_column (PyBool false) (IntSeries uint64 [1; 1]%Z) = Ok (Some "NUMERIC").
Proof.
  split.
  - apply (proj2 (proj1 (bit_exactly_zero_and_one (PyBool false) uint64 [0; 1; 1]%Z))).
    split_and!.
    + intros v [->|[->|[->|[]%elem_of_nil]%elem_of_cons]%elem_of_cons]%elem_of_cons; auto.
    + left.
    + right; left.
  - apply (proj2 (bit_exactly_zero_and_one (PyBool false) uint64 [1; 1]%Z)).
    right. right.
    intros v [->|[->|[]%elem_of_nil]%elem_of_cons]%elem_of_cons; reflexivity.
Defined.

(** C3, as stated, fails: a 16-bit unsigned column is typed INT. *)
Lemma uint16_counterexample :
  outside_01 [2; 40000]%Z
  ∧ infer_column (PyBool false) (IntSeries uint16 [2; 40000]%Z) = Ok (Some "INT")
  ∧ infer_column (PyBool false) (IntSeries uint16 [2; 40000]%Z) ≠ Ok (Some "SMALLINT").
Proof.
  split_and!; [|done..]. exists 2%Z. split; [left|done].
Qed.

(** C3, amended. With values outside {0,1}, an 8-bit unsigned column and a
    16-bit signed column are both SMALLINT while a 16-bit unsigned column is
    INT; the type depends on the declared width label only, not on the
    values. *)
Theorem unsigned_width_labels vm values8 values16 :
  outside_01 values8 → outside_01 values16 →
  infer_column vm (IntSeries uint8 values8) = Ok (Some "SMALLINT")
  ∧ infer_column vm (IntSeries int16 values16) = Ok (Some "SMALLINT")
  ∧ infer_column vm (IntSeries uint16 values16) = Ok (Some "INT")
  ∧ ∀ dtype, infer_column vm (IntSeries dtype values8)
             = infer_column vm (IntSeries dtype values16).
Proof.
  intros H8 H16. split_and!; [| | |intros dtype];
    rewrite !infer_column_int, ?(is_bit_outside _ H8), ?(is_bit_outside _ H16); done.
Qed.

Lemma unsigned_width_labels_witness :
  infer_column (PyBool false) (IntSeries uint8 [200]%Z) = Ok (Some "SMALLINT")
  ∧ infer_column (PyBool false) (IntSeries uint16 [40000]%Z) = Ok (Some "INT").
Proof.
  assert (H8 : outside_01 [200]%Z) by (exists 200%Z; split; [left|done]).
  assert (H16 : outside_01 [40000]%Z) by (exists 40000%Z; split; [left|done]).
  destruct (unsigned_width_labels (PyBool false) _ _ H8 H16) as (?&_&?&_). by split.
Defined.

(** ** The primary key *)

(** C4. The docstring requires the primary-key column to hold no missing
    value, and line 140 raises [PrimaryKeyNullError] otherwise. At this input
    the call returns a statement instead: [pkey="A"] designates column [A],
    which has a missing value, and is accepted because column [a], which
    bears the same sanitized name, has none (line 136 looks the sanitized
    name up among the names of the columns without missing value); line 137
    then marks column [A] as the primary key. *)
Lemma pkey_with_null_accepted :
  slugify (Some "A") ∈ sql_col_names two_a
  ∧ two_a !! 0 = Some (Column "A" (TextSeries false [Some "x"; None]))
  ∧ slug (Column "A" (TextSeries false [Some "x"; None])) = slugify (Some "A")
  ∧ notnull_all (TextSeries false [Some "x"; None]) = false
  ∧ sql_columns two_a (PyStr "A") (PyBool false) (PyBool true) None
    = Ok ([Some "a"; Some "a"], ["VARCHAR(1) PRIMARY KEY"; "VARCHAR(1)"])
  ∧ create_table_sql_script two_a None (PyStr "A") (PyBool false) (PyBool true) None
    = Ok ("CREATE TABLE no_name ( " +:+ newline +:+ "a VARCHAR(1) PRIMARY KEY"
          +:+ newline +:+ ", a VARCHAR(1)" +:+ newline +:+ ");").
Proof. split_and!; try reflexivity. compute_done. Qed.

(** The check of line 136 does stop the call when no column bearing the
    sanitized name of [pkey] is free of missing values: with unique raw
    names, [infer_nulls] in [[True, False]] and a completed type inference,
    the call raises [PrimaryKeyNullError] and returns no statement. *)
Lemma pkey_null_raises df table_name p vm inf ow tys :
  NoDup (columns df) → in_True_False inf = true →
  infer_types vm df = Ok tys →
  slugify (Some p) ∈ sql_col_names df →
  (∀ c, c ∈ df → slug c = slugify (Some p) → notnull_all (col_data c) = false) →
  create_table_sql_script df table_name (PyStr p) vm inf ow = Raise PrimaryKeyNull
  ∧ exn_class PrimaryKeyNull = "PrimaryKeyNullError"
  ∧ ∀ statement,
      create_table_sql_script df table_name (PyStr p) vm inf ow ≠ Ok statement.
Proof.
  intros Hnd Hinf Hty Hin Hnull.
  assert (H : create_table_sql_script df table_name (PyStr p) vm inf ow
              = Raise PrimaryKeyNull).
  { apply create_table_sql_script_Raise.
    { unfold render_exn. naive_solver. }
    apply sql_columns_PrimaryKeyNull.
    split; [by split|]. split; [by eauto|].
    exists p. split_and!; [done..|].
    intros (c&Hc&Hnn&Heq)%elem_of_not_null_columns.
    by rewrite (Hnull c Hc) in Hnn. }
  split_and!; [done..|]. intros statement. by rewrite H.
Qed.

Example pkey_null_raises_people :
  create_table_sql_script nullable_id (Some "people") (PyStr "id") (PyBool false)
    (PyBool true) None = Raise PrimaryKeyNull.
Proof.
  refine (proj1 (pkey_null_raises nullable_id (Some "people") "id" (PyBool false)
                   (PyBool true) None ["NUMERIC"; "VARCHAR(2)"] _ _ _ _ _)).
  - compute_done.
  - reflexivity.
  - reflexivity.
  - compute_done.
  - intros c Hc Hs. apply elem_of_cons in Hc as [->|Hc]; [reflexivity|].
    apply elem_of_cons in Hc as [->|Hc]; [discriminate Hs|].
    by apply elem_of_nil in Hc.
Qed.

(** ** Not-null inference *)

(** C5. The docstring and the comment of line 99 reserve NOT NULL for the
    columns without missing value. At this input, with [infer_nulls=True], no
    primary key and no override, column [A], which has a missing value, is
    rendered NOT NULL, and column [a], which has none, is not: line 152 finds
    the column to mark by the first position of the sanitized name, which
    both columns bear. *)
Lemma not_null_on_wrong_column :
  two_a !! 0 = Some (Column "A" (TextSeries false [Some "x"; None]))
  ∧ two_a !! 1 = Some (Column "a" (TextSeries false [Some "y"; Some "z"]))
  ∧ notnull_all (TextSeries false [Some "x"; None]) = false
  ∧ notnull_all (TextSeries false [Some "y"; Some "z"]) = true
  ∧ sql_columns two_a PyNone (PyBool false) (PyBool true) None
    = Ok ([Some "a"; Some "a"], ["VARCHAR(1) NOT NULL"; "VARCHAR(1)"])
  ∧ create_table_sql_script two_a None PyNone (PyBool false) (PyBool true) None
    = Ok ("CREATE TABLE no_name ( " +:+ newline +:+ "a VARCHAR(1) NOT NULL"
          +:+ newline +:+ ", a VARCHAR(1)" +:+ newline +:+ ");").
Proof. by split_and!. Qed.

(** ** Overrides *)

(** C6. The docstring has [overwrite] map a column name to the type that
    replaces the inferred one. At this input the override keyed [a] names
    column [a], whose sanitized name it matches; the call succeeds, column
    [a] keeps its inferred type and the override string replaces the type of
    column [A]: line 160 writes at the first position of the sanitized name,
    which both columns bear. *)
Lemma override_on_wrong_column :
  two_a_int !! 0 = Some (Column "A" (IntSeries int64 [5]%Z))
  ∧ two_a_int !! 1 = Some (Column "a" (IntSeries int64 [7]%Z))
  ∧ slugify (Some "a") ∈ sql_col_names two_a_int
  ∧ sql_columns two_a_int PyNone (PyBool false) (PyBool true) (Some [("a", "DATE")])
    = Ok ([Some "a"; Some "a"], ["DATE"; "BIGINT"])
  ∧ create_table_sql_script two_a_int None PyNone (PyBool false) (PyBool true)
      (Some [("a", "DATE")])
    = Ok ("CREATE TABLE no_name ( " +:+ newline +:+ "a DATE"
          +:+ newline +:+ ", a BIGINT" +:+ newline +:+ ");").
Proof. split_and!; [done|done|compute_done|done..]. Qed.

Lemma override_for_None n items :
  n ∉ override_keys items → override_for n items = None.
Proof.
  induction items as [|[c ty] rest IH]; simpl; [done|].
  intros [Hc Hrest]%not_elem_of_cons. rewrite IH by done.
  by rewrite bool_decide_eq_false_2.
Qed.

(** ** Idempotence of the sanitizer *)

(** C7, as stated, fails: a label without any kept character sanitizes to the
    empty string, which sanitizes to [None]. *)
Lemma idempotence_counterexample :
  slugify (Some "!") = Some EmptyString
  ∧ slugify (slugify (Some "!")) = None
  ∧ slugify (slugify (Some "!")) ≠ slugify (Some "!").
Proof. by split_and!. Qed.

(** C7, amended. For every input whose characters lie in U+0000..U+00FF (the
    strings of this embedding, and [None]), sanitizing the result of
    sanitizing it returns that result again, unless the result is the empty
    string, for which the second application returns [None]. *)
Theorem slugify_idempotent_but_empty (s : option string) :
  slugify (slugify s)
  = if bool_decide (slugify s = Some EmptyString) then None else slugify s.
Proof. apply slugify_slugify. Qed.

Lemma slugify_idempotent_but_empty_witness :
  slugify (slugify (Some "  First Name. ")) = slugify (Some "  First Name. ").
Proof. exact (slugify_idempotent_but_empty (Some "  First Name. ")). Defined.

(** ** Argument type errors *)

(** C8, as stated, fails: the integer 1 is not a boolean, and with
    [infer_nulls=1] the call returns a statement. *)
Lemma type_error_counterexample :
  is_bool (PyInt 1) = false
  ∧ create_table_sql_script people (Some "people") PyNone (PyBool false) (PyInt 1) None
    = Ok ("CREATE TABLE people ( " +:+ newline +:+ "id BIT NOT NULL"
          +:+ newline +:+ ", name VARCHAR(2)"
          +:+ newline +:+ ", age NUMERIC NOT NULL" +:+ newline +:+ ");").
Proof. by split_and!. Qed.

(** C8, amended. The call raises the [TypeError] of line 87 exactly when the
    raw column names are unique and [infer_nulls] is not in [[True, False]]
    (by [==], so that 1 and 0 are accepted); it raises the [TypeError] of
    line 144 exactly when the raw column names are unique, [infer_nulls] is in
    [[True, False]], type inference completes, and [pkey] is neither [None]
    nor a string. A call that raises returns no statement. *)
Theorem type_error_exactly df table_name pkey vm inf ow :
  (create_table_sql_script df table_name pkey vm inf ow = Raise InferNullsNotBool
   ↔ NoDup (columns df) ∧ in_True_False inf = false)
  ∧ (create_table_sql_script df table_name pkey vm inf ow = Raise PkeyNotStr
     ↔ NoDup (columns df) ∧ in_True_False inf = true
       ∧ (∃ tys, infer_types vm df = Ok tys)
       ∧ pkey ≠ PyNone ∧ is_str pkey = false)
  ∧ exn_class InferNullsNotBool = "TypeError"
  ∧ exn_class PkeyNotStr = "TypeError".
Proof.
  assert (Hstr : is_str pkey = false ↔ ∀ p, pkey ≠ PyStr p).
  { destruct pkey; simpl; naive_solver. }
  split_and!; [| |done..].
  - rewrite create_table_sql_script_Raise by (unfold render_exn; naive_solver).
    apply sql_columns_InferNullsNotBool.
  - rewrite create_table_sql_script_Raise by (unfold render_exn; naive_solver).
    rewrite sql_columns_PkeyNotStr, Hstr. unfold checks_pass. naive_solver.
Qed.

Lemma type_error_exactly_witness :
  create_table_sql_script people None (PyInt 7) (PyBool false) (PyBool true) None
  = Raise PkeyNotStr
  ∧ create_table_sql_script people None PyNone (PyBool false) (PyStr "yes") None
    = Raise InferNullsNotBool.
Proof.
  split.
  - apply (proj1 (proj2 (type_error_exactly people None (PyInt 7) (PyBool false)
                           (PyBool true) None))).
    split; [compute_done|].
    split; [reflexivity|]. split; [eexists; reflexivity|].
    split; [discriminate|reflexivity].
  - apply (proj1 (type_error_exactly people None PyNone (PyBool false)
                    (PyStr "yes") None)).
    split; [compute_done|reflexivity].
Defined.

(** ** Sanitized names that collide *)

(** C9, as stated, fails in two ways. When the colliding identifier is the
    empty string: the labels [#] and [!] both sanitize to it, line 152
    sanitizes it once more, to [None], and the two not-null markings
    addressed to it land on the column labelled with the empty string, whose
    sanitized name is [None]; the first column bearing the identifier
    receives nothing. And when another raw name is repeated: beside the
    colliding labels [A] and [a], the label [b] occurs twice and the call
    raises the duplicate-name error. *)
Lemma empty_identifier_counterexample :
  (NoDup (columns empty_names)
   ∧ sql_col_names empty_names = [None; Some EmptyString; Some EmptyString]
   ∧ not_null_columns empty_names = [None; Some EmptyString; Some EmptyString]
   ∧ first_at (sql_col_names empty_names) (Some EmptyString) 1
   ∧ sql_columns empty_names PyNone (PyBool false) (PyBool true) None
     = Ok ([None; Some EmptyString; Some EmptyString],
           ["BIGINT NOT NULL NOT NULL NOT NULL"; "BIGINT"; "BIGINT"])
   ∧ create_table_sql_script empty_names None PyNone (PyBool false) (PyBool true) None
     = Ok ("CREATE TABLE no_name ( " +:+ newline
           +:+ "None BIGINT NOT NULL NOT NULL NOT NULL"
           +:+ newline +:+ ",  BIGINT" +:+ newline +:+ ",  BIGINT"
           +:+ newline +:+ ");"))
  ∧ (sql_col_names (two_a_int ++ [Column "b" (IntSeries int64 [1]%Z);
                                  Column "b" (IntSeries int64 [2]%Z)])
     = [Some "a"; Some "a"; Some "b"; Some "b"]
     ∧ create_table_sql_script
         (two_a_int ++ [Column "b" (IntSeries int64 [1]%Z);
                        Column "b" (IntSeries int64 [2]%Z)])
         None PyNone (PyBool false) (PyBool true) None
       = Raise DuplicateColumns).
Proof.
  split; [|by split].
  split_and!; [compute_done|done|done| |done|done].
  split; [done|]. intros [|[|j]] Hj; [done|lia|lia].
Qed.

(** C9, amended. Let the raw column names be pairwise distinct and position
    [j] bear a sanitized name that an earlier position bears too. The call
    raises no duplicate-name error (that error is raised exactly for
    repeated raw names). When the call gets through its passes, the entry of
    [sql_col_types] at position [j] is still the one the inference loop put
    there. If moreover, when [infer_nulls == True], sanitizing again leaves
    the sanitized name of every column without missing value unchanged, the
    first position bearing a name [n] carries every marking addressed to
    [n]: its entry is the last override whose key sanitizes to [n] if there
    is one, and otherwise the inferred type followed by PRIMARY KEY if [pkey]
    sanitizes to [n] and, when [infer_nulls == True], by one NOT NULL for
    each column without missing value that bears [n], less one if [pkey]
    sanitizes to [n]. *)
Theorem collisions_hit_first_column df table_name pkey vm inf ow j :
  NoDup (columns df) → repeated (sql_col_names df) j →
  create_table_sql_script df table_name pkey vm inf ow ≠ Raise DuplicateColumns
  ∧ (∀ df', create_table_sql_script df' table_name pkey vm inf ow = Raise DuplicateColumns
            ↔ ¬ NoDup (columns df'))
  ∧ (∀ names tys tys0,
       sql_columns df pkey vm inf ow = Ok (names, tys) →
       infer_types vm df = Ok tys0 →
       tys !! j = tys0 !! j
       ∧ ((eq_True inf = true → ∀ m, m ∈ not_null_columns df → slugify m = m) →
          ∀ i n, first_at names n i →
            tys !! i = match ow ≫= override_for n with
                       | Some ty => Some ty
                       | None => first_bearer_type df pkey inf n <$> tys0 !! i
                       end)).
Proof.
  intros Hnd Hj.
  assert (Hdup : ∀ df', create_table_sql_script df' table_name pkey vm inf ow
                        = Raise DuplicateColumns ↔ ¬ NoDup (columns df')).
  { intros df'. rewrite create_table_sql_script_Raise; [|unfold render_exn; naive_solver].
    apply sql_columns_DuplicateColumns. }
  split_and!.
  - intros H%Hdup. by destruct H.
  - done.
  - intros names tys tys0 (_&->&t0&t1&t2&H0&H1&H2&H3)%sql_columns_Ok_inv Hty.
    assert (t0 = tys0) as -> by congruence. split.
    + rewrite (apply_overwrite_untouched _ _ Hj _ _ _ H3).
      rewrite (apply_not_null_untouched _ _ Hj _ _ _ _ _ H2).
      by rewrite (apply_pkey_untouched _ _ Hj _ _ _ _ H1).
    + intros Hfix i n Hi.
      assert (Hpk : pkey = PyNone ∨ ∃ p, pkey = PyStr p).
      { destruct (apply_pkey_Ok _ _ _ _ _ H1) as [[? _]|(p&?&?&?&_)]; eauto. }
      rewrite (apply_overwrite_first _ _ _ Hi _ _ _ H3).
      destruct (ow ≫= override_for n); [done|].
      rewrite (apply_not_null_first _ _ _ Hi _ _ _ _ _ Hpk Hfix H2).
      rewrite (apply_pkey_first _ _ _ Hi _ _ _ _ H1).
      unfold first_bearer_type, not_null_count. by destruct (tys0 !! i).
Qed.

Lemma collisions_hit_first_column_witness :
  create_table_sql_script two_a_int None (PyStr "a") (PyBool false) (PyBool true) None
    ≠ Raise DuplicateColumns
  ∧ ∃ tys,
      sql_columns two_a_int (PyStr "a") (PyBool false) (PyBool true) None
        = Ok ([Some "a"; Some "a"], tys)
      ∧ tys !! 0 = Some "BIGINT PRIMARY KEY NOT NULL"
      ∧ tys !! 1 = Some "BIGINT".
Proof.
  assert (Hnd : NoDup (columns two_a_int)) by compute_done.
  assert (Hj : repeated (sql_col_names two_a_int) 1).
  { exists 0, (Some "a"). split; [lia|]. split; reflexivity. }
  destruct (collisions_hit_first_column two_a_int None (PyStr "a") (PyBool false)
              (PyBool true) None 1 Hnd Hj) as (H1&_&H2).
  split; [exact H1|].
  destruct (H2 [Some "a"; Some "a"] ["BIGINT PRIMARY KEY NOT NULL"; "BIGINT"]
              ["BIGINT"; "BIGINT"] eq_refl eq_refl) as [Hj' Hfirst].
  assert (Hfix : eq_True (PyBool true) = true →
                 ∀ m, m ∈ not_null_columns two_a_int → slugify m = m).
  { intros _. apply Forall_forall. repeat constructor. }
  exists ["BIGINT PRIMARY KEY NOT NULL"; "BIGINT"]. split; [reflexivity|]. split.
  - apply (Hfirst Hfix 0 (Some "a")). split; [reflexivity|]. intros k Hk. lia.
  - exact Hj'.
Defined.

(** ** A text column without any value *)

(** Whenever the checks pass, [varchar_max] is not [True] and [.str] refuses
    no column, a text column all of whose cells are missing stops the call
    at line 112. *)
Lemma all_missing_text_raises df table_name pkey vm inf ow :
  checks_pass df inf → is_True vm = false →
  Forall (λ c, ¬ str_refused c) df → Exists all_missing_text df →
  create_table_sql_script df table_name pkey vm inf ow = Raise LengthIsNaN.
Proof.
  intros Hchk Hvm Hall Hex.
  apply create_table_sql_script_Raise; [unfold render_exn; naive_solver|].
  rewrite sql_columns_checked by done.
  by rewrite infer_types_Raise_any.
Qed.

(** C10. There is a dataset with a text column all of whose values are
    missing on which the call with [varchar_max=False] raises the
    [ValueError] of converting NaN to an integer, and so returns no
    statement. *)
Theorem all_missing_text_fails :
  ∃ df : DataFrame,
    Exists all_missing_text df
    ∧ ∀ table_name,
        create_table_sql_script df table_name PyNone (PyBool false) (PyBool true) None
        = Raise LengthIsNaN
    ∧ exn_class LengthIsNaN = "ValueError".
Proof.
  exists notes_only.
  assert (Hex : Exists all_missing_text notes_only).
  { apply Exists_cons_hd. unfold all_missing_text. simpl. by repeat constructor. }
  split; [done|]. intros table_name. split; [|done].
  apply all_missing_text_raises; [|done| |done].
  - split; [compute_done|done].
  - apply Forall_singleton. by intros [].
Qed.


(** * Further properties *)

(** ** The sanitizer: what a sanitized name looks like *)

Lemma is_stable_word c :
  is_stable c = true → is_word c = true ∨ c = "-"%char.
Proof.
  destruct c as [[] [] [] [] [] [] [] []]; vm_compute; intros H;
    first [discriminate H | by left | by right].
Qed.

Lemma rstrip_last p l c : last (rstrip p l) = Some c → p c = false.
Proof.
  induction l as [|d r IH]; simpl; [done|].
  destruct (rstrip p r) as [|e r'] eqn:E.
  - destruct (p d) eqn:Hd; simpl; [done|]. by intros [= <-].
  - rewrite last_cons_cons. exact IH.
Qed.

Lemma head_lower l c : head (lower l) = Some c → ∃ d, head l = Some d ∧ c = lower_char d.
Proof. destruct l as [|d r]; simpl; [done|]. intros [= <-]. eauto. Qed.

(** X1. The sanitized name of a label over U+0000..U+00FF is made of word
    characters and hyphens that [lower] leaves alone, without whitespace or
    dot, and neither begins nor ends with an underscore, a hyphen, a dot or a
    space. *)
Theorem slugify_alphabet (s : option string) (r : string) :
  slugify s = Some r →
  Forall (λ c, (is_word c = true ∨ c = "-"%char) ∧ lower_char c = c
               ∧ is_space c = false ∧ is_dot c = false)
         (list_ascii_of_string r)
  ∧ (∀ c, head (list_ascii_of_string r) = Some c → is_trim c = false)
  ∧ (∀ c, last (list_ascii_of_string r) = Some c → is_trim c = false).
Proof.
  destruct s as [[|a s]|]; try done. rewrite slugify_Some_cons.
  intros [= <-]. rewrite list_ascii_of_string_of_list_ascii.
  set (l := list_ascii_of_string (String a s)). split_and!.
  - eapply Forall_impl; [apply slug_chars_stable|]. simpl. intros c Hc.
    destruct (is_stable_inv c Hc) as (?&?&?&?).
    split_and!; [by apply is_stable_word|done..].
  - unfold slug_chars. intros c (d&Hd&->)%head_lower.
    rewrite is_trim_lower_char.
    pose proof (rstrip_head is_trim _ (lstrip_head is_trim
      (remove_unsafe (sub_spaces false (remove_dots (strip is_space l)))))) as Hh.
    unfold strip in Hd. destruct (rstrip is_trim _); simplify_eq/=. done.
  - unfold slug_chars, lower.
    change (List.map lower_char ?x) with (lower_char <$> x).
    rewrite fmap_last. intros c Hc.
    destruct (last _) as [d|] eqn:Hd; simplify_eq/=.
    rewrite is_trim_lower_char. unfold strip in Hd. by eapply rstrip_last.
Qed.

Lemma slugify_alphabet_witness :
  Forall (λ c, (is_word c = true ∨ c = "-"%char) ∧ lower_char c = c
               ∧ is_space c = false ∧ is_dot c = false)
         (list_ascii_of_string "first_name").
Proof.
  exact (proj1 (slugify_alphabet (Some "  First Name. ") "first_name" eq_refl)).
Defined.

(** ** The sanitizer: labels it does not tell apart *)

Lemma is_space_lower_char c : is_space (lower_char c) = is_space c.
Proof. each_char c. Qed.

Lemma is_dot_lower_char c : is_dot (lower_char c) = is_dot c.
Proof. each_char c. Qed.

Lemma is_kept_lower_char c : is_kept (lower_char c) = is_kept c.
Proof. each_char c. Qed.

Lemma lower_char_idem c : lower_char (lower_char c) = lower_char c.
Proof. each_char c. Qed.

Lemma filter_map_comm {A} (f : A → bool) (g : A → A) l :
  (∀ c, f (g c) = f c) → List.filter f (List.map g l) = List.map g (List.filter f l).
Proof.
  intros Hf. induction l as [|c r IH]; simpl; [done|].
  rewrite Hf. destruct (f c); simpl; by rewrite IH.
Qed.

Lemma sub_spaces_lower b l : sub_spaces b (lower l) = lower (sub_spaces b l).
Proof.
  revert b. induction l as [|c r IH]; intros b; simpl; [done|].
  rewrite is_space_lower_char. destruct (is_space c), b; simpl; by rewrite IH.
Qed.

(** Lowering the label first changes nothing. *)
Lemma slug_chars_lower l : slug_chars (lower l) = slug_chars l.
Proof.
  unfold slug_chars, lower.
  rewrite (strip_map is_space) by apply is_space_lower_char.
  unfold remove_dots.
  rewrite filter_map_comm by (intros c; by rewrite is_dot_lower_char).
  fold (lower (List.filter (λ c, negb (is_dot c)) (strip is_space l))).
  rewrite sub_spaces_lower. unfold lower, remove_unsafe.
  rewrite filter_map_comm by apply is_kept_lower_char.
  rewrite (strip_map is_trim) by apply is_trim_lower_char.
  rewrite List.map_map. apply List.map_ext. apply lower_char_idem.
Qed.

(** X2. [slugify] does not tell apart two labels over U+0000..U+00FF that
    differ in case only. *)
Theorem slugify_ignores_case (s1 s2 : string) :
  lower (list_ascii_of_string s1) = lower (list_ascii_of_string s2) →
  slugify (Some s1) = slugify (Some s2).
Proof.
  intros H. destruct s1 as [|a1 s1], s2 as [|a2 s2]; try done.
  rewrite !slugify_Some_cons.
  rewrite <- (slug_chars_lower (list_ascii_of_string (String a1 s1))), H.
  by rewrite slug_chars_lower.
Qed.

Lemma slugify_ignores_case_witness :
  slugify (Some "Unit Price") = slugify (Some "UNIT price").
Proof. exact (slugify_ignores_case "Unit Price" "UNIT price" eq_refl). Defined.

Lemma lstrip_app_l p ws l :
  Forall (λ c, p c = true) ws → lstrip p (ws ++ l) = lstrip p l.
Proof. induction 1 as [|c r Hc _ IH]; simpl; [done|]. by rewrite Hc. Qed.

Lemma rstrip_all p ws : Forall (λ c, p c = true) ws → rstrip p ws = [].
Proof. induction 1 as [|c r Hc _ IH]; simpl; [done|]. by rewrite IH, Hc. Qed.

Lemma rstrip_app_r p l ws :
  Forall (λ c, p c = true) ws → rstrip p (l ++ ws) = rstrip p l.
Proof.
  intros Hws. induction l as [|c r IH]; simpl; [by apply rstrip_all|]. by rewrite IH.
Qed.

Lemma strip_app_r p l ws :
  Forall (λ c, p c = true) ws → strip p (l ++ ws) = strip p l.
Proof.
  intros Hws. unfold strip. induction l as [|c r IH].
  - simpl. replace (lstrip p ws) with (@nil ascii); [done|].
    symmetry. rewrite <- (app_nil_r ws). by rewrite lstrip_app_l.
  - change (lstrip p ((c :: r) ++ ws))
      with (if p c then lstrip p (r ++ ws) else c :: (r ++ ws)).
    change (lstrip p (c :: r)) with (if p c then lstrip p r else c :: r).
    destruct (p c); [done|]. exact (rstrip_app_r p (c :: r) ws Hws).
Qed.

Lemma list_ascii_of_string_app (s t : string) :
  list_ascii_of_string (s +:+ t) = list_ascii_of_string s ++ list_ascii_of_string t.
Proof. induction s as [|c s IH]; [done|]. exact (f_equal (cons c) IH). Qed.

(** X3. Whitespace around a non-empty label does not change its sanitized
    name. *)
Theorem slugify_ignores_outer_space (ws s ws' : string) :
  all_space ws → all_space ws' → s ≠ EmptyString →
  slugify (Some (ws +:+ s +:+ ws')) = slugify (Some s).
Proof.
  intros Hws Hws' Hs.
  assert (Hne : ∃ a r, ws +:+ s +:+ ws' = String a r).
  { destruct ws as [|a r]; [|by exists a, (r +:+ s +:+ ws')].
    destruct s as [|a r]; [done|]. by exists a, (r +:+ ws'). }
  destruct Hne as (a&r&Hne). destruct s as [|b t]; [done|].
  rewrite Hne, !slugify_Some_cons, <- Hne. do 2 f_equal.
  rewrite !list_ascii_of_string_app. unfold slug_chars.
  rewrite app_assoc, strip_app_r by done.
  unfold strip at 2. rewrite lstrip_app_l by done. done.
Qed.

Lemma slugify_ignores_outer_space_witness :
  slugify (Some ("  " +:+ "id" +:+ " ")) = slugify (Some "id").
Proof.
  apply (slugify_ignores_outer_space "  " "id" " ").
  - repeat constructor.
  - repeat constructor.
  - discriminate.
Defined.

(** ** Type inference of text columns and the types it can give *)

Lemma str_len_max_bound values n :
  str_len_max values = Some n →
  (∃ s, Some s ∈ values ∧ String.length s = n)
  ∧ ∀ s, Some s ∈ values → String.length s ≤ n.
Proof.
  revert n. induction values as [|[s|] r IH]; intros n; simpl; [done| |].
  - destruct (str_len_max r) as [m|] eqn:E.
    + intros [= <-]. destruct (IH m eq_refl) as [(s'&Hs'&Hlen) Hle]. split.
      * destruct (Nat.max_spec (String.length s) m) as [[_ ->]|[_ ->]].
        -- exists s'. split; [by right|done].
        -- exists s. split; [left|done].
      * intros x [[= ->]|Hx]%elem_of_cons; [lia|]. specialize (Hle x Hx). lia.
    + intros [= <-]. split; [exists s; split; [left|done]|].
      intros x [[= ->]|Hx]%elem_of_cons; [done|].
      apply str_len_max_None in E. rewrite Forall_forall in E.
      by specialize (E _ Hx).
  - intros H. destruct (IH n H) as [(s'&Hs'&Hlen) Hle]. split.
    + exists s'. split; [by right|done].
    + intros x [?|Hx]%elem_of_cons; [done|]. by apply Hle.
Qed.

(** X4. Unless [varchar_max] is [True], a text column with at least one
    non-missing value is typed VARCHAR(n), where n is the length of one of
    its strings and no string of the column is longer; missing cells do not
    count. *)
Theorem varchar_length_is_longest vm categorical values s0 :
  is_True vm = false → Some s0 ∈ values →
  ∃ n, infer_column vm (TextSeries categorical values)
       = Ok (Some ("VARCHAR(" +:+ pretty n +:+ ")"))
    ∧ (∃ s, Some s ∈ values ∧ String.length s = n)
    ∧ ∀ s, Some s ∈ values → String.length s ≤ n.
Proof.
  intros Hvm Hs0. destruct (str_len_max values) as [n|] eqn:E.
  - exists n. simpl. rewrite Hvm, E. split; [done|]. by apply str_len_max_bound.
  - apply str_len_max_None in E. rewrite Forall_forall in E. by specialize (E _ Hs0).
Qed.

Lemma varchar_length_is_longest_witness :
  ∃ n, infer_column (PyInt 1) (TextSeries true [Some "Al"; None; Some "Bob"])
       = Ok (Some ("VARCHAR(" +:+ pretty n +:+ ")"))
    ∧ (∃ s, Some s ∈ [Some "Al"; None; Some "Bob"] ∧ String.length s = n)
    ∧ ∀ s, Some s ∈ [Some "Al"; None; Some "Bob"] → String.length s ≤ n.
Proof.
  apply (varchar_length_is_longest (PyInt 1) true [Some "Al"; None; Some "Bob"] "Al").
  - reflexivity.
  - left.
Defined.

Lemma infer_column_documented vm s t :
  infer_column vm s = Ok (Some t) → documented_type t.
Proof.
  unfold documented_type.
  destruct s as [cat values|cat isna|dt values|dt isna|isna]; simpl.
  - destruct (is_True vm).
    + intros [= <-]. left. compute_done.
    + destruct (str_len_max values) as [n|]; [|done]. intros [= <-]. right. by exists n.
  - done.
  - destruct (_ && _); [intros [= <-]; left; compute_done|].
    destruct dt; intros [= <-]; left; compute_done.
  - intros [= <-]. left. compute_done.
  - done.
Qed.

(** X5. Every type the inference loop puts in [sql_col_types] is one of the
    seven SQL types of the docstring: TEXT, VARCHAR(n), BIT, SMALLINT, INT,
    BIGINT or NUMERIC. *)
Theorem inferred_types_documented vm df tys :
  infer_types vm df = Ok tys → Forall documented_type tys.
Proof.
  revert tys. induction df as [|c r IH]; intros tys; simpl.
  - intros [= <-]. constructor.
  - intros (t&Ht&(ts&Hts&[= <-])%bind_Ok)%bind_Ok.
    apply Forall_app. split; [|by apply IH].
    destruct t as [t|]; simpl; [|constructor].
    apply Forall_singleton. by eapply infer_column_documented.
Qed.

Lemma inferred_types_documented_witness :
  Forall documented_type ["BIT"; "VARCHAR(2)"; "NUMERIC"].
Proof. exact (inferred_types_documented (PyBool false) people _ eq_refl). Defined.

(** ** Which check stops a call *)



(** X7. The call raises the [ValueError] of line 142 exactly when the raw
    column names are unique, [infer_nulls] is in [[True, False]], type
    inference completes, and [pkey] is a string whose sanitized form is the
    sanitized name of no column. *)
Theorem pkey_unknown_exactly df table_name pkey vm inf ow :
  create_table_sql_script df table_name pkey vm inf ow = Raise PkeyUnknown
  ↔ checks_pass df inf ∧ (∃ tys, infer_types vm df = Ok tys)
    ∧ ∃ p, pkey = PyStr p ∧ slugify (Some p) ∉ sql_col_names df.
Proof.
  rewrite create_table_sql_script_Raise by (unfold render_exn; naive_solver).
  split.
  - intros H. apply sql_columns_Raise in H as [[? _]|[[? _]|[[[?|?] _]|(?&tys&?&H)]]];
      try done.
    destruct H as [H%apply_pkey_Raise|H]; naive_solver.
  - intros (Hchk&[tys Hty]&p&->&Hp). rewrite sql_columns_checked by done.
    rewrite Hty. simpl. unfold apply_pkey. by rewrite bool_decide_eq_false_2.
Qed.

Lemma pkey_unknown_exactly_witness :
  create_table_sql_script people None (PyStr "identifier") (PyBool false)
    (PyBool true) None = Raise PkeyUnknown.
Proof.
  apply pkey_unknown_exactly. split; [split; [compute_done|reflexivity]|].
  split; [eexists; reflexivity|]. exists "identifier". split; [reflexivity|compute_done].
Defined.

(** ** How many names and types a call handles *)

Lemma infer_types_length vm df tys :
  infer_types vm df = Ok tys →
  length tys ≤ length df
  ∧ (Exists (λ c, ¬ supported c) df → length tys < length df).
Proof.
  revert tys. induction df as [|c r IH]; intros tys; simpl.
  - intros [= <-]. split; [done|]. by intros ?%Exists_nil.
  - intros (t&Ht&(ts&Hts&[= <-])%bind_Ok)%bind_Ok.
    destruct (IH ts Hts) as [Hle Hlt]. rewrite length_app. split.
    + destruct t; simpl; lia.
    + intros [Hc|Hr]%Exists_cons.
      * destruct t as [t|]; simpl; [|lia]. destruct Hc. unfold supported.
        destruct (col_data c); simpl in Ht; done.
      * specialize (Hlt Hr). destruct t; simpl; lia.
Qed.

Lemma for_each_length {A B} (body : list B → A → result (list B)) l :
  (∀ s a s', body s a = Ok s' → length s' = length s) →
  ∀ s s', for_each body l s = Ok s' → length s' = length s.
Proof.
  intros Hbody. induction l as [|a r IH]; intros s s'; simpl.
  - by intros [= <-].
  - intros (s1&H1&Hr)%bind_Ok. rewrite (IH _ _ Hr). eauto.
Qed.

Lemma apply_pkey_length names nn pkey tys tys' :
  apply_pkey names nn pkey tys = Ok tys' → length tys' = length tys.
Proof.
  intros [[_ ->]|(p&i&t&_&_&_&_&->)]%apply_pkey_Ok; [done|]. apply length_insert.
Qed.

Lemma apply_not_null_length names nn pkey inf tys tys' :
  apply_not_null names nn pkey inf tys = Ok tys' → length tys' = length tys.
Proof.
  unfold apply_not_null. destruct (eq_True inf); [|by intros [= <-]].
  intros (nn'&_&H)%bind_Ok. revert H. apply for_each_length.
  intros s n s' (i&t&_&_&->)%mark_not_null_Ok. apply length_insert.
Qed.

Lemma apply_overwrite_length names ow tys tys' :
  apply_overwrite names ow tys = Ok tys' → length tys' = length tys.
Proof.
  destruct ow as [items|]; simpl; [|by intros [= <-]].
  apply for_each_length.
  intros s [c ty] s' (i&_&_&->)%overwrite_one_Ok. apply length_insert.
Qed.

Lemma render_rest_Ok_length names : ∀ i tys statement s,
  render_rest i names tys statement = Ok s →
  names = [] ∨ i + length names ≤ length tys.
Proof.
  induction names as [|n names IH]; intros i tys statement s; simpl; [by left|].
  intros (t&Ht%getitem_Ok&(st&_&Hr)%bind_Ok)%bind_Ok. right.
  apply lookup_lt_Some in Ht. apply IH in Hr as [->|Hr]; simpl; lia.
Qed.

Lemma render_Ok_length table_name names tys s :
  render table_name names tys = Ok s → names ≠ [] ∧ length names ≤ length tys.
Proof.
  unfold render.
  intros (n0&Hn%getitem_Ok&(t0&Ht%getitem_Ok&(st&_&(st'&Hr&_)%bind_Ok)%bind_Ok)%bind_Ok)%bind_Ok.
  apply render_rest_Ok_length in Hr. apply lookup_lt_Some in Ht.
  destruct names as [|n names]; [done|]. split; [done|].
  rewrite skipn_cons, drop_0 in Hr. destruct Hr as [->|Hr]; simpl; lia.
Qed.

(** X8. Through the three passes the call keeps one sanitized name per
    column, in dataset order, and exactly as many type strings as the
    inference loop produced; with supported dtypes only, that is one type
    string per column. *)
Theorem columns_kept df pkey vm inf ow names tys :
  sql_columns df pkey vm inf ow = Ok (names, tys) →
  names = (λ c, slugify (Some (col_name c))) <$> df
  ∧ length names = length df
  ∧ (∃ tys0, infer_types vm df = Ok tys0 ∧ length tys = length tys0)
  ∧ (Forall supported df → length tys = length df).
Proof.
  intros (_&->&t0&t1&t2&H0&H1&H2&H3)%sql_columns_Ok_inv.
  apply apply_pkey_length in H1. apply apply_not_null_length in H2.
  apply apply_overwrite_length in H3.
  split_and!.
  - done.
  - apply sql_col_names_length.
  - exists t0. split; [done|]. congruence.
  - intros Hsup.
    pose proof (Forall2_length _ _ _ (infer_types_Forall2 _ _ _ Hsup H0)). congruence.
Qed.

Lemma columns_kept_witness :
  length (sql_col_names people) = length people.
Proof.
  exact (proj1 (proj2 (columns_kept people (PyStr "id") (PyBool false) (PyBool true)
                         (Some [("NAME", "DATE")]) _ _ eq_refl))).
Defined.

(** X9. A dataset with a column of a dtype the function has no branch for
    never gets a statement: the column appends no type, and the rendering
    (or an earlier pass) runs out of type strings. *)
Theorem unsupported_dtype_no_statement df table_name pkey vm inf ow :
  Exists (λ c, ¬ supported c) df →
  ∀ statement, create_table_sql_script df table_name pkey vm inf ow ≠ Ok statement.
Proof.
  intros Hex statement. unfold create_table_sql_script.
  intros ([names tys]&Hcols&[_ Hlen]%render_Ok_length)%bind_Ok. simpl in Hlen.
  apply sql_columns_Ok_inv in Hcols as (_&->&t0&t1&t2&H0&H1&H2&H3).
  apply apply_pkey_length in H1. apply apply_not_null_length in H2.
  apply apply_overwrite_length in H3.
  destruct (infer_types_length _ _ _ H0) as [_ Hlt]. specialize (Hlt Hex).
  rewrite sql_col_names_length in Hlen. lia.
Qed.

Lemma unsupported_dtype_no_statement_witness :
  create_table_sql_script
    [ Column "flag" (OtherSeries [false; false]); Column "n" (IntSeries int32 [3; 4]%Z) ]
    None PyNone (PyBool false) (PyBool false) None
  ≠ Ok ("CREATE TABLE no_name ( " +:+ newline +:+ "flag INT" +:+ newline +:+ ");").
Proof.
  apply unsupported_dtype_no_statement. apply Exists_cons_hd. intros H. exact H.
Defined.

(** X10. A dataset without columns never gets a statement; a call that
    passes the check of line 86 without [pkey] and overrides ends with the
    [IndexError] of [sql_col_names[0]]. *)
Theorem no_column_no_statement table_name pkey vm inf ow :
  (∀ statement, create_table_sql_script [] table_name pkey vm inf ow ≠ Ok statement)
  ∧ (in_True_False inf = true →
     create_table_sql_script [] table_name PyNone vm inf None = Raise IndexOutOfRange).
Proof.
  split.
  - intros statement. unfold create_table_sql_script.
    intros ([names tys]&Hcols&[Hne _]%render_Ok_length)%bind_Ok.
    apply sql_columns_Ok_inv in Hcols as (_&->&_). by destruct Hne.
  - intros Hinf. unfold create_table_sql_script, sql_columns. simpl.
    rewrite Hinf. simpl. unfold apply_not_null. by destruct (eq_True inf).
Qed.

(** ** The statement of a well-formed call *)

Lemma pretty_N_char_no_brace y :
  Ascii.eqb (pretty_N_char y) "{" = false ∧ Ascii.eqb (pretty_N_char y) "}" = false.
Proof. unfold pretty_N_char. by repeat case_match. Qed.

Lemma brace_free_pretty_N_go x s :
  brace_free s = true → brace_free (pretty_N_go x s) = true.
Proof.
  revert s. induction (N.lt_wf_0 x) as [x _ IH]; intros s Hs.
  destruct (decide (0 < x)%N) as [Hx|Hx].
  - rewrite pretty_N_go_step by done. apply IH; [by apply N.div_lt|].
    simpl. destruct (pretty_N_char_no_brace (x `mod` 10)%N) as [-> ->]. by rewrite Hs.
  - assert (x = 0%N) as -> by lia. by rewrite pretty_N_go_0.
Qed.

Lemma brace_free_pretty (n : nat) : brace_free (pretty n) = true.
Proof.
  unfold pretty, pretty_nat, pretty, pretty_N. case_decide; [done|].
  by apply brace_free_pretty_N_go.
Qed.

Lemma infer_column_brace_free vm s t :
  infer_column vm s = Ok (Some t) → brace_free t = true.
Proof.
  intros [Ht|[n ->]]%infer_column_documented.
  - repeat (apply elem_of_cons in Ht as [->|Ht]; [done|]). by apply elem_of_nil in Ht.
  - by rewrite !brace_free_app, brace_free_pretty.
Qed.

Lemma override_for_Some n items ty :
  override_for n items = Some ty → ∃ key, (key, ty) ∈ items ∧ slugify (Some key) = n.
Proof.
  induction items as [|[c ty'] rest IH]; simpl; [done|].
  destruct (override_for n rest) as [t|].
  - intros [= ->]. destruct (IH eq_refl) as (key&?&?). exists key. split; [by right|done].
  - case_bool_decide; [|done]. intros [= ->]. exists c. split; [left|done].
Qed.

Lemma final_type_brace_free pkey inf ow c t :
  brace_free t = true →
  (∀ items, ow = Some items → Forall (λ item, brace_free item.2 = true) items) →
  brace_free (final_type pkey inf ow c t) = true.
Proof.
  intros Ht How. unfold final_type.
  destruct ow as [items|]; simpl.
  - destruct (override_for (slug c) items) as [ty|] eqn:E; simpl.
    + apply override_for_Some in E as (key&Hin&_).
      specialize (How items eq_refl). rewrite Forall_forall in How.
      exact (How _ Hin).
    + unfold constrained. repeat case_match; by rewrite ?brace_free_app, Ht.
  - unfold constrained. repeat case_match; by rewrite ?brace_free_app, Ht.
Qed.

(** X11. The statement of a well-formed call. For a dataset with at least
    one column, supported dtypes and pairwise distinct sanitized names, a
    call that passes every check (its table name and override strings free
    of braces) and in which, when [infer_nulls == True], sanitizing again
    leaves the sanitized name of every column without missing value
    unchanged, returns: the line CREATE TABLE with the table name or
    [no_name], then one line per column in dataset order, made of the
    sanitized name and the column's final type string and preceded by a comma
    from the second column on, then the closing line. *)
Theorem statement_of_call c0 rest table_name pkey vm inf ow t0 tys0 :
  NoDup (sql_col_names (c0 :: rest)) →
  in_True_False inf = true →
  Forall supported (c0 :: rest) →
  infer_types vm (c0 :: rest) = Ok (t0 :: tys0) →
  pkey_ok (c0 :: rest) pkey →
  (eq_True inf = true → ∀ n, n ∈ not_null_columns (c0 :: rest) → slugify n = n) →
  (∀ items, ow = Some items →
     Forall (λ item, slugify (Some item.1) ∈ sql_col_names (c0 :: rest)) items) →
  (∀ items, ow = Some items → Forall (λ item, brace_free item.2 = true) items) →
  brace_free (shown_table_name table_name) = true →
  create_table_sql_script (c0 :: rest) table_name pkey vm inf ow
  = Ok (statement_text table_name (slug c0) (final_type pkey inf ow c0 t0)
          (slug <$> rest) (zip_with (final_type pkey inf ow) rest tys0)).
Proof.
  intros Hnd Hinf Hsup Hty Hpkey Hne Hkeys Hbf Htn.
  destruct (sql_columns_Ok _ pkey vm inf ow _ Hnd Hinf Hsup Hty Hpkey Hne Hkeys)
    as (tys&Hrun&Hlen&Hget).
  pose proof (Forall2_length _ _ _ (infer_types_Forall2 _ _ _ Hsup Hty)) as Hlen0.
  assert (Htys : tys = zip_with (final_type pkey inf ow) (c0 :: rest) (t0 :: tys0)).
  { apply list_eq. intros i. rewrite lookup_zip_with.
    destruct ((c0 :: rest) !! i) as [c|] eqn:Hc; simpl.
    - destruct (lookup_lt_is_Some_2 (t0 :: tys0) i) as [t Ht].
      { rewrite <- Hlen0. by eapply lookup_lt_Some. }
      rewrite Ht. simpl. by apply Hget.
    - apply lookup_ge_None. rewrite Hlen. by apply lookup_ge_None. }
  simpl in Htys. rewrite Htys in Hrun.
  change (sql_col_names (c0 :: rest)) with (slug c0 :: (slug <$> rest)) in Hrun.
  assert (Hall : Forall (λ t, brace_free t = true)
                   (zip_with (final_type pkey inf ow) (c0 :: rest) (t0 :: tys0))).
  { apply Forall_lookup. intros i t. rewrite lookup_zip_with_Some.
    intros (c&t'&->&Hc&Ht'). apply final_type_brace_free; [|done].
    destruct (infer_types_lookup _ _ _ _ _ Hsup Hty Hc) as (t''&Hinf'&Ht'').
    assert (t'' = t') as -> by congruence. by eapply infer_column_brace_free. }
  apply (create_table_sql_script_Ok _ _ _ _ _ _ _ _ _ _ Hrun); [|done|done].
  rewrite length_fmap, length_zip_with. simpl in Hlen0. lia.
Qed.

Lemma statement_of_call_witness :
  create_table_sql_script people (Some "people") (PyStr "ID") (PyBool false)
    (PyBool true) (Some [("age", "FLOAT NOT NULL")])
  = Ok ("CREATE TABLE people ( " +:+ newline +:+ "id BIT PRIMARY KEY"
        +:+ newline +:+ ", name VARCHAR(2)"
        +:+ newline +:+ ", age FLOAT NOT NULL" +:+ newline +:+ ");").
Proof.
  refine (statement_of_call _ _ (Some "people") (PyStr "ID") (PyBool false)
            (PyBool true) (Some [("age", "FLOAT NOT NULL")]) "BIT"
            ["VARCHAR(2)"; "NUMERIC"] _ _ _ _ _ _ _ _ _).
  - compute_done.
  - reflexivity.
  - repeat constructor.
  - reflexivity.
  - right. exists "ID". split; [reflexivity|compute_done].
  - intros _. apply Forall_forall. repeat constructor.
  - intros items [= <-]. repeat constructor.
  - intros items [= <-]. repeat constructor.
  - reflexivity.
Defined.

(** ** Braces and the repeated [str.format] *)

(** The [str.format] of lines 167 and 169: its template is a constant, so the
    arguments are copied whatever they contain. *)
Lemma first_format table_name n0 t0 :
  match table_name with
  | None | Some EmptyString =>
      py_format ("CREATE TABLE no_name ( " +:+ newline +:+ "{} {}") [n0; t0]
  | Some name =>
      py_format ("CREATE TABLE {} ( " +:+ newline +:+ "{} {}") [name; n0; t0]
  end
  = Ok ("CREATE TABLE " +:+ shown_table_name table_name +:+ " ( " +:+ newline
        +:+ n0 +:+ " " +:+ t0).
Proof.
  destruct table_name as [[|c name]|]; closed_template; cbv -[String.append];
    by rewrite (append_nil_r t0).
Qed.

(** X12. For a dataset of one column the loop of lines 171-172 does not run:
    whenever the passes succeed, the call returns the statement with the
    table name and the type string copied as they are, braces included. *)
Theorem one_column_statement c table_name pkey vm inf ow names t tys :
  sql_columns [c] pkey vm inf ow = Ok (names, t :: tys) →
  create_table_sql_script [c] table_name pkey vm inf ow
  = Ok ("CREATE TABLE " +:+ shown_table_name table_name +:+ " ( " +:+ newline
        +:+ str (slugify (Some (col_name c))) +:+ " " +:+ t +:+ newline +:+ ");").
Proof.
  intros Hrun. unfold create_table_sql_script. rewrite Hrun. simpl.
  apply sql_columns_Ok_inv in Hrun as (_&->&_). unfold render.
  apply bind_Ok. eexists. split; [reflexivity|].
  apply bind_Ok. eexists. split; [reflexivity|].
  apply bind_Ok. eexists. split; [apply first_format|].
  apply bind_Ok. eexists. split; [reflexivity|].
  by rewrite !append_assoc.
Qed.

Lemma one_column_statement_witness :
  create_table_sql_script [Column "Payload" (TextSeries false [Some "x"])]
    (Some "{raw}") PyNone (PyBool false) (PyBool false) (Some [("payload", "JSON{}")])
  = Ok ("CREATE TABLE {raw} ( " +:+ newline +:+ "payload JSON{}" +:+ newline +:+ ");").
Proof.
  exact (one_column_statement (Column "Payload" (TextSeries false [Some "x"]))
           (Some "{raw}") PyNone (PyBool false) (PyBool false)
           (Some [("payload", "JSON{}")]) _ "JSON{}" [] eq_refl).
Defined.

(** ** Override keys with one sanitized form *)

Lemma override_for_last n items1 key ty items2 :
  slugify (Some key) = n → n ∉ override_keys items2 →
  override_for n (items1 ++ (key, ty) :: items2) = Some ty.
Proof.
  intros Hkey Hlast. induction items1 as [|[c ty'] rest IH]; simpl.
  - rewrite override_for_None by done. by rewrite bool_decide_eq_true_2.
  - by rewrite IH.
Qed.

(** X13. When the types line up with the names and every override key
    names a column, the override pass succeeds, and of the overrides whose
    keys have the same sanitized form the last one in the order of the
    dictionary is the one left at the first column bearing that name. *)
Theorem last_override_wins names tys items1 key sql_type items2 i :
  length tys = length names →
  Forall (λ item, slugify (Some item.1) ∈ names) (items1 ++ (key, sql_type) :: items2) →
  first_at names (slugify (Some key)) i →
  slugify (Some key) ∉ override_keys items2 →
  ∃ tys', apply_overwrite names (Some (items1 ++ (key, sql_type) :: items2)) tys = Ok tys'
    ∧ tys' !! i = Some sql_type.
Proof.
  intros Hlen Hknown Hi Hlast. simpl.
  destruct (for_each_overwrite_one names _ tys Hlen Hknown) as (tys'&Hrun&_&Hget).
  exists tys'. split; [done|].
  by rewrite (Hget i _ Hi), (override_for_last _ items1 key sql_type items2).
Qed.

Lemma last_override_wins_witness :
  ∃ tys', apply_overwrite [Some "when"; Some "n"]
            (Some [("When", "DATE"); ("n", "REAL"); ("when", "TIMESTAMP")])
            ["VARCHAR(10)"; "BIGINT"] = Ok tys'
    ∧ tys' !! 0 = Some "TIMESTAMP".
Proof.
  apply (last_override_wins [Some "when"; Some "n"] ["VARCHAR(10)"; "BIGINT"]
           [("When", "DATE"); ("n", "REAL")] "when" "TIMESTAMP" [] 0).
  - reflexivity.
  - repeat constructor.
  - split; [reflexivity|]. intros j Hj. lia.
  - apply not_elem_of_nil.
Defined.

(** ** A column whose name sanitizes to the empty string *)




(** ** The frame of every statement *)

Lemma render_rest_prefix pre names : ∀ i tys x s,
  brace_free pre = true →
  render_rest i names tys (pre +:+ x) = Ok s → ∃ x', s = pre +:+ x'.
Proof.
  induction names as [|n names IH]; intros i tys x s Hpre; simpl.
  - intros [= <-]. by exists x.
  - intros (t&_&(st&Hst&Hr)%bind_Ok)%bind_Ok.
    rewrite append_assoc, py_format_prefix in Hst by done.
    apply bind_Ok in Hst as (y&_&[= <-]). by eapply IH.
Qed.

(** X15. Every statement the call returns, whatever the braces in the table
    name or in the override strings did to the rest, begins with
    [CREATE TABLE ] and ends with a line break and [);]. *)
Theorem statement_frame df table_name pkey vm inf ow statement :
  create_table_sql_script df table_name pkey vm inf ow = Ok statement →
  ∃ body, statement = "CREATE TABLE " +:+ body +:+ newline +:+ ");".
Proof.
  unfold create_table_sql_script. intros ([names tys]&_&H)%bind_Ok.
  unfold render in H. cbn [fst snd] in H.
  apply bind_Ok in H as (n0&_&(t0&_&(st&Hst&(st'&Hr&[= <-])%bind_Ok)%bind_Ok)%bind_Ok).
  rewrite (first_format table_name (str n0) t0) in Hst. injection Hst as <-.
  apply render_rest_prefix in Hr as [body ->]; [|done].
  exists body. by rewrite append_assoc.
Qed.

Lemma statement_frame_witness :
  ∃ body, "CREATE TABLE {raw} ( " +:+ newline +:+ "payload JSON{}" +:+ newline +:+ ");"
          = "CREATE TABLE " +:+ body +:+ newline +:+ ");".
Proof.
  exact (statement_frame [Column "Payload" (TextSeries false [Some "x"])]
           (Some "{raw}") PyNone (PyBool false) (PyBool false)
           (Some [("payload", "JSON{}")]) _ eq_refl).
Defined.
